(** * The daily resampling and sensor comparison pipeline of [site_daily]

    A shallow embedding of the cell "Comparison of soil moisture probes" of
    [notebook.ipynb]: the function [site_daily] reads the daily and the
    sub-hourly table of a station, averages the sub-hourly [_VWC] channels by
    calendar date ([groupby(...).mean()]), joins the result to the daily
    table ([DataFrame.join]), keeps the [_VWC] channels and [COSMOS_VWC],
    drops the columns that hold no value at all ([dropna(axis=1, how='all')])
    and reshapes the table to long form ([pd.melt]).

    The pandas operations are modelled on the frames the catalog produces
    ([read_csv] with [parse_dates=['DATE_TIME']] and [na_values=[-9999]]):
    a [DATE_TIME] column that is [datetime64[ns]] when it could be parsed and
    text otherwise, and measurement columns of [float64] with [NaN] for a
    missing value.  In the tables of the run a [float64] value is idealised
    as a rational number; the values the mean kernel computes in [float64]
    arithmetic are modelled apart, on binary64 floats
    ([daily_aggregate_f64]). *)

From Stdlib Require Import String ZArith QArith Floats Bool Lia Sorted List.
Import ListNotations.

Local Open Scope string_scope.
Local Open Scope Z_scope.

(** ** Data model *)

(** A [float64] cell; [None] is [NaN]. *)
Definition cell : Type := option Q.

(** A [datetime64[ns]] value in nanoseconds since the epoch; [None] is [NaT]. *)
Definition stamp : Type := option Z.

(** A named [float64] column. *)
Definition column : Type := (string * list cell)%type.

(** A cell of a [DATE_TIME] column that is text: the text, and the
    timestamp [astype('datetime64[ns]')] reads from it ([NaT] included)
    when it reads one. *)
Definition text_cell : Type := (string * option stamp)%type.

(** The [DATE_TIME] column as [read_csv] leaves it: parsed to
    [datetime64[ns]], or left as text (dtype [object]); the latter when a
    value could not be parsed and also when the file has no row. *)
Inductive time_column : Type :=
| Parsed (ts : list stamp)
| Unparsed (raw : list text_cell).

(** A table as [cat.data_siteid(...).read()] returns it: a default integer
    index, the [DATE_TIME] column when the file has one, and the measurement
    columns in file order. *)
Record source_table : Type := mkSource {
  DATE_TIME : option time_column;
  channels : list column
}.

(** A frame whose index is a [DatetimeIndex] named [DATE_TIME]. *)
Record frame : Type := mkFrame {
  index : list stamp;
  columns : list column
}.

(** The frame after [reset_index()]: [DATE_TIME] is a column again, and it
    is a column [dropna(axis=1)] may remove. *)
Record wide_table : Type := mkWide {
  stamps : option (list stamp);
  sensors : list column
}.

(** A row of the long form: [DATE_TIME], [Sensor], [VWC]. *)
Definition record : Type := (stamp * string * cell)%type.

(** The exceptions the pandas calls of [site_daily] raise. *)
Inductive exn : Type := KeyError | AttributeError | ValueError.

Inductive result (A : Type) : Type :=
| Return (a : A)
| Raise (e : exn).
Arguments Return {A} a.
Arguments Raise {A} e.

Definition bind {A B : Type} (r : result A) (k : A -> result B) : result B :=
  match r with
  | Return a => k a
  | Raise e => Raise e
  end.

Notation "x <- r ;; k" := (bind r (fun x => k))
  (at level 61, r at next level, right associativity).


(** ** Text and time helpers *)

(** [str.endswith]: some tail of [s] is [suffix]. *)
Fixpoint endswith (suffix s : string) : bool :=
  if String.eqb s suffix then true
  else match s with
       | EmptyString => false
       | String _ s' => endswith suffix s'
       end.

Definition vwc_suffix : string := "_VWC".
Definition is_vwc (c : column) : bool := endswith vwc_suffix (fst c).

Definition NS_PER_DAY : Z := 86400000000000.

(** [Series.dt.date]: the calendar date, as days since the epoch. *)
Definition date (t : Z) : Z := t / NS_PER_DAY.

(** A date converted back by [astype('datetime64[ns]')]: midnight of the day. *)
Definition midnight (d : Z) : Z := d * NS_PER_DAY.

Definition is_NaN (x : cell) : bool :=
  match x with None => true | Some _ => false end.

Definition is_NaT (t : stamp) : bool :=
  match t with None => true | Some _ => false end.

Definition stamp_eqb (a b : stamp) : bool :=
  match a, b with
  | Some x, Some y => x =? y
  | None, None => true
  | _, _ => false
  end.

(** ** Daily Aggregator: [groupby(DATE_TIME.dt.date)[vwc columns].mean()] *)

(** The group keys, sorted and without repetition ([sort=True]). *)
Fixpoint insert_key (d : Z) (us : list Z) : list Z :=
  match us with
  | [] => [d]
  | u :: us' =>
      if d <? u then d :: us
      else if d =? u then us
      else u :: insert_key d us'
  end.

(** A [NaT] key opens no group ([dropna=True]). *)
Definition add_key (us : list Z) (k : option Z) : list Z :=
  match k with
  | Some d => insert_key d us
  | None => us
  end.

Definition unique_keys (ks : list (option Z)) : list Z :=
  fold_left add_key ks [].

(** The position of a key among the groups. *)
Fixpoint code_of (d : Z) (us : list Z) : option nat :=
  match us with
  | [] => None
  | u :: us' => if d =? u then Some O else option_map S (code_of d us')
  end.

(** The group code of each row; [None] is the code -1 of a dropped row. *)
Definition factorize_with (us : list Z) (ks : list (option Z))
  : list (option nat) * list Z :=
  (map (fun k => match k with Some d => code_of d us | None => None end) ks,
   us).

Definition factorize (ks : list (option Z)) : list (option nat) * list Z :=
  factorize_with (unique_keys ks) ks.

Fixpoint alter {A : Type} (f : A -> A) (i : nat) (l : list A) : list A :=
  match l, i with
  | [], _ => []
  | a :: l', O => f a :: l'
  | a :: l', S i' => a :: alter f i' l'
  end.

(** The running sum and the number of observations of a group. *)
Definition accumulator : Type := (Q * nat)%type.

Definition observe (x : Q) (a : accumulator) : accumulator :=
  (fst a + x, S (snd a))%Q.

(** One row of the mean kernel: rows without a group and [NaN] values are
    skipped. *)
Definition accumulate (acc : list accumulator) (row : option nat * cell)
  : list accumulator :=
  match row with
  | (Some g, Some x) => alter (observe x) g acc
  | _ => acc
  end.

(** A group without any observation yields [NaN]. *)
Definition finish (a : accumulator) : cell :=
  match snd a with
  | O => None
  | S _ => Some (fst a / inject_Z (Z.of_nat (snd a)))%Q
  end.

Definition group_mean (ngroups : nat) (labels : list (option nat))
           (values : list cell) : list cell :=
  map finish
      (fold_left accumulate (combine labels values) (repeat (0%Q, O) ngroups)).

Definition daily_aggregate (sub : source_table) : result frame :=
  match DATE_TIME sub with
  | None => Raise KeyError
  | Some (Unparsed _) => Raise AttributeError
  | Some (Parsed ts) =>
      let '(labels, uniques) := factorize (map (option_map date) ts) in
      Return {| index := map (fun d => Some (midnight d)) uniques;
                columns :=
                  map (fun c => (fst c,
                                 group_mean (length uniques) labels (snd c)))
                      (filter is_vwc (channels sub)) |}
  end.

(** ** The Daily Aggregator in [float64] arithmetic

    The same grouping on columns of binary64 floats, where [NaN] is the
    missing value.  The mean kernel of [groupby(...).mean()] (pandas'
    [group_mean]) sums the observations of a group with Kahan compensation,
    row after row, and divides the sum by the number of observations. *)

Definition f64_column : Type := (string * list float)%type.

Record f64_table : Type := mkF64Table {
  F64_DATE_TIME : option time_column;
  F64_channels : list f64_column
}.

Record f64_frame : Type := mkF64Frame {
  f64_index : list stamp;
  f64_columns : list f64_column
}.

Definition is_vwc_f64 (c : f64_column) : bool := endswith vwc_suffix (fst c).

(** One compensated addition: the sum and the compensation.  A
    compensation that is [NaN] (after an infinite value) is reset. *)
Definition kahan_add (sc : float * float) (val : float) : float * float :=
  let y := PrimFloat.sub val (snd sc) in
  let t := PrimFloat.add (fst sc) y in
  let c := PrimFloat.sub (PrimFloat.sub t (fst sc)) y in
  (t, if PrimFloat.is_nan c then PrimFloat.zero else c).

(** The sum with its compensation, and the number of observations. *)
Definition f64_accumulator : Type := ((float * float) * nat)%type.

Definition observe_f64 (val : float) (a : f64_accumulator)
  : f64_accumulator :=
  (kahan_add (fst a) val, S (snd a)).

Definition accumulate_f64 (acc : list f64_accumulator)
           (row : option nat * float) : list f64_accumulator :=
  match row with
  | (Some g, val) =>
      if PrimFloat.is_nan val then acc else alter (observe_f64 val) g acc
  | (None, _) => acc
  end.

(** The number of observations as a float. *)
Definition count_f64 (n : nat) : float :=
  PrimFloat.of_uint63 (Uint63.of_Z (Z.of_nat n)).

Definition finish_f64 (a : f64_accumulator) : float :=
  match snd a with
  | O => PrimFloat.nan
  | S _ => PrimFloat.div (fst (fst a)) (count_f64 (snd a))
  end.

Definition group_mean_f64 (ngroups : nat) (labels : list (option nat))
           (values : list float) : list float :=
  map finish_f64
      (fold_left accumulate_f64 (combine labels values)
                 (repeat ((PrimFloat.zero, PrimFloat.zero), O) ngroups)).

Definition daily_aggregate_f64 (sub : f64_table) : result f64_frame :=
  match F64_DATE_TIME sub with
  | None => Raise KeyError
  | Some (Unparsed _) => Raise AttributeError
  | Some (Parsed ts) =>
      let '(labels, uniques) := factorize (map (option_map date) ts) in
      Return {| f64_index := map (fun d => Some (midnight d)) uniques;
                f64_columns :=
                  map (fun c => (fst c,
                                 group_mean_f64 (length uniques) labels
                                                (snd c)))
                      (filter is_vwc_f64 (F64_channels sub)) |}
  end.

(** ** Series Aligner *)

(** The timestamps of a text column, when every cell reads as one. *)
Fixpoint read_stamps (raw : list text_cell) : option (list stamp) :=
  match raw with
  | [] => Some []
  | c :: raw' =>
      match snd c, read_stamps raw' with
      | Some t, Some ts => Some (t :: ts)
      | _, _ => None
      end
  end.

(** [Series.astype('datetime64[ns]')]: a parsed column is returned as it
    is; a text column is read cell by cell and raises on a cell that does
    not read; a text column without cells is read as the empty column. *)
Definition astype_datetime (tc : time_column) : result (list stamp) :=
  match tc with
  | Parsed ts => Return ts
  | Unparsed raw =>
      match read_stamps raw with
      | Some ts => Return ts
      | None => Raise ValueError
      end
  end.

(** [daily_dataset.index = daily_dataset.DATE_TIME.astype('datetime64[ns]')].
    The attribute lookup fails on a table without the column.  The
    [DATE_TIME] column itself stays in the pandas frame, but nothing reads
    it again: its name does not end in [_VWC], so it neither collides in the
    join nor survives the selection of the target columns. *)
Definition set_index (daily : source_table) : result frame :=
  match DATE_TIME daily with
  | None => Raise AttributeError
  | Some tc =>
      ts <- astype_datetime tc ;;
      Return {| index := ts; columns := channels daily |}
  end.

(** The row of the other frame that carries the key [k]. *)
Fixpoint locate (k : stamp) (ix : list stamp) : option nat :=
  match ix with
  | [] => None
  | k' :: ix' =>
      if stamp_eqb k k' then Some O else option_map S (locate k ix')
  end.

Definition take_row (ix : list stamp) (ys : list cell) (k : stamp) : cell :=
  match locate k ix with
  | Some i => nth i ys None
  | None => None
  end.

Definition named (n : string) (c : column) : bool := String.eqb n (fst c).

Definition has_column (name : string) (cs : list column) : bool :=
  existsb (named name) cs.

(** [left.join(right)]: the default [how='left'] on the index.  The rows are
    the rows of [left], in its order; a column of [right] is read at the row
    of [right] with the same key and is [NaN] where [right] has no such row.
    Columns of the same name on both sides raise (no suffix is given).  The
    index of [right] is an index without repetition here (group keys). *)
Definition reindex (right : frame) (keys : list stamp) (c : column)
  : column :=
  (fst c, map (take_row (index right) (snd c)) keys).

Definition join (left right : frame) : result frame :=
  if existsb (fun c => has_column (fst c) (columns right)) (columns left)
  then Raise ValueError
  else Return {| index := index left;
                 columns :=
                   columns left ++
                   map (reindex right (index left)) (columns right) |}.

(** [frame[names]]: the columns of each name, in the order of [names]; a
    name without a column raises. *)
Definition getitem (names : list string) (f : frame) : result frame :=
  if forallb (fun n => has_column n (columns f)) names
  then Return {| index := index f;
                 columns :=
                   flat_map (fun n => filter (named n) (columns f)) names |}
  else Raise KeyError.

(** [reset_index()]: the index named [DATE_TIME] becomes the first column.
    The assignment of the same values as index on the next line is not read
    by [dropna(axis=1)] or [melt]. *)
Definition reset_index (f : frame) : wide_table :=
  {| stamps := Some (index f); sensors := columns f |}.

Definition all_NaN (xs : list cell) : bool := forallb is_NaN xs.
Definition all_NaT (ts : list stamp) : bool := forallb is_NaT ts.

(** [dropna(axis=1, how='all')]: a column is kept when it holds at least one
    value; the rows are not touched. *)
Definition dropna_columns (w : wide_table) : wide_table :=
  {| stamps := match stamps w with
               | Some ts => if all_NaT ts then None else Some ts
               | None => None
               end;
     sensors := filter (fun c => negb (all_NaN (snd c))) (sensors w) |}.

Definition target_columns (sub : source_table) : list string :=
  map fst (filter is_vwc (channels sub)) ++ ["COSMOS_VWC"].

(** The frame [daily_joined] after the join and the selection. *)
Definition daily_joined (daily sub : source_table) : result frame :=
  d <- set_index daily ;;
  a <- daily_aggregate sub ;;
  j <- join d a ;;
  getitem (target_columns sub) j.

(** The aligned daily table: [daily_joined] when [melt] is called. *)
Definition aligned (daily sub : source_table) : result wide_table :=
  j <- daily_joined daily sub ;;
  Return (dropna_columns (reset_index j)).

(** ** Reshaper *)

(** [pd.melt(w, id_vars='DATE_TIME', var_name="Sensor", value_name="VWC")]:
    every other column in turn, and under it every row. *)
Definition melt_column (ts : list stamp) (c : column) : list record :=
  map (fun tx => (fst tx, fst c, snd tx)) (combine ts (snd c)).

Definition melt (w : wide_table) : result (list record) :=
  match stamps w with
  | None => Raise KeyError
  | Some ts => Return (flat_map (melt_column ts) (sensors w))
  end.

(** ** The run for a station *)

Inductive resolution : Type := Daily | Hourly | SH.

(** The tabular data source: the columns of the file of a resolution and
    a station. *)
Definition catalog : Type := resolution -> string -> source_table.

(** [cat.data_siteid(...).read()]: [read_csv] with
    [parse_dates=['DATE_TIME']] raises when the file has no such column. *)
Definition read (file : source_table) : result source_table :=
  match DATE_TIME file with
  | None => Raise ValueError
  | Some _ => Return file
  end.

Definition daily_joined_long (daily sub : source_table)
  : result (list record) :=
  w <- aligned daily sub ;;
  melt w.

(** The table [site_daily] hands to the plot, statement by statement. *)
Definition site_daily (cat : catalog) (target_station : string)
  : result (list record) :=
  daily_dataset <- read (cat Daily target_station) ;;
  daily_indexed <- set_index daily_dataset ;;
  subhourly_dataset <- read (cat SH target_station) ;;
  a <- daily_aggregate subhourly_dataset ;;
  j <- join daily_indexed a ;;
  selected <- getitem (target_columns subhourly_dataset) j ;;
  melt (dropna_columns (reset_index selected)).

(** ** Frame objects and selections

    [site_daily] changes frames in place.  The frames it creates itself
    ([daily_aggregate], [daily_joined]) are not reachable once the call
    returns; the frame [read()] hands out is the one object that could
    outlive the call, and the call assigns its index.  The object is
    modelled with the slot that assignment overwrites, and the catalog with
    both ways of handing out frames: a fresh copy for every call, or the
    same object again. *)

(** A frame object: the columns read from the file, and the index,
    [None] for the default integer index. *)
Record frame_object : Type := mkObject {
  columns_of : source_table;
  index_of : option (list stamp)
}.

(** The frame objects behind the catalog. *)
Definition store : Type := resolution -> string -> frame_object.

Definition contents (s : store) : catalog :=
  fun r station => columns_of (s r station).

Definition resolution_eqb (r r' : resolution) : bool :=
  match r, r' with
  | Daily, Daily | Hourly, Hourly | SH, SH => true
  | _, _ => false
  end.

Definition put (s : store) (r : resolution) (station : string)
           (o : frame_object) : store :=
  fun r' station' =>
    if resolution_eqb r r' && String.eqb station station' then o
    else s r' station'.

Definition read_object (o : frame_object) : result frame_object :=
  match DATE_TIME (columns_of o) with
  | None => Raise ValueError
  | Some _ => Return o
  end.

(** [frame.index = frame.DATE_TIME.astype('datetime64[ns]')], in place. *)
Definition assign_index (o : frame_object) : result frame_object :=
  match DATE_TIME (columns_of o) with
  | None => Raise AttributeError
  | Some tc =>
      ts <- astype_datetime tc ;;
      Return {| columns_of := columns_of o; index_of := Some ts |}
  end.

(** The frame a join reads from an object: its columns under its index.
    The default integer index holds no timestamp ([site_daily] assigns the
    index before it joins). *)
Definition object_frame (o : frame_object) : frame :=
  {| index := match index_of o with
              | Some ts => ts
              | None => match DATE_TIME (columns_of o) with
                        | Some (Parsed ts) => map (fun _ => None) ts
                        | Some (Unparsed raw) => map (fun _ => None) raw
                        | None => []
                        end
              end;
     columns := channels (columns_of o) |}.

(** One call of [site_daily] on the frame objects: the store after the
    call and the long form.  With [cached] the catalog hands out the stored
    object itself, so the assignment of the index stays in the store. *)
Definition site_daily_call (cached : bool) (s : store)
           (target_station : string) : store * result (list record) :=
  match read_object (s Daily target_station) with
  | Raise e => (s, Raise e)
  | Return daily_dataset =>
      match assign_index daily_dataset with
      | Raise e => (s, Raise e)
      | Return daily_indexed =>
          let s' := if cached
                    then put s Daily target_station daily_indexed
                    else s in
          (s',
           subhourly_dataset <- read_object (s' SH target_station) ;;
           a <- daily_aggregate (columns_of subhourly_dataset) ;;
           j <- join (object_frame daily_indexed) a ;;
           selected <-
             getitem (target_columns (columns_of subhourly_dataset)) j ;;
           melt (dropna_columns (reset_index selected)))
      end
  end.

(** The panel calls [site_daily] at every change of the selected station
    and shows what the last call returned. *)
Definition select_station (cached : bool)
           (state : store * list (result (list record)))
           (station : string) : store * list (result (list record)) :=
  let '(s', shown) := site_daily_call cached (fst state) station in
  (s', (snd state ++ [shown])%list).

Definition run (cached : bool) (s : store) (selections : list string)
  : store * list (result (list record)) :=
  fold_left (select_station cached) selections (s, []).

(** ** Reference notions of the specification *)

(** The non-missing observations of a channel that fall on the date [d]. *)
Definition on_date (d : Z) (row : stamp * cell) : list Q :=
  match row with
  | (Some t, Some x) => if date t =? d then [x] else []
  | _ => []
  end.

Definition observations (d : Z) (ts : list stamp) (xs : list cell) : list Q :=
  flat_map (on_date d) (combine ts xs).

Definition Qsum (vs : list Q) : Q := fold_left Qplus vs 0%Q.

(** The arithmetic mean; missing when there is nothing to average. *)
Definition arithmetic_mean (vs : list Q) : cell :=
  match vs with
  | [] => None
  | _ :: _ => Some (Qsum vs / inject_Z (Z.of_nat (length vs)))%Q
  end.

(** Chronological order without repetition. *)
Definition increasing (us : list Z) : Prop := StronglySorted Z.lt us.

(** The values the kernel adds to the accumulator of group [g]. *)
Definition of_group (g : nat) (row : option nat * cell) : list Q :=
  match row with
  | (Some g', Some x) => if Nat.eqb g' g then [x] else []
  | _ => []
  end.

(** The non-missing [float64] observations of a channel on the date [d],
    in row order. *)
Definition on_date_f64 (d : Z) (row : stamp * float) : list float :=
  match row with
  | (Some t, val) =>
      if PrimFloat.is_nan val then []
      else if date t =? d then [val] else []
  | (None, _) => []
  end.

Definition observations_f64 (d : Z) (ts : list stamp) (xs : list float)
  : list float :=
  flat_map (on_date_f64 d) (combine ts xs).

(** The [float64] mean of a list of values: their compensated sum divided
    by their number, [NaN] when there is none. *)
Definition f64_mean (vs : list float) : float :=
  match vs with
  | [] => PrimFloat.nan
  | _ :: _ =>
      PrimFloat.div
        (fst (fold_left kahan_add vs (PrimFloat.zero, PrimFloat.zero)))
        (count_f64 (length vs))
  end.

Definition of_group_f64 (g : nat) (row : option nat * float) : list float :=
  match row with
  | (Some g', val) =>
      if PrimFloat.is_nan val then []
      else if Nat.eqb g' g then [val] else []
  | (None, _) => []
  end.

(** The float of an integer. *)
Definition f64_of_Z (z : Z) : float :=
  match z with
  | Z0 => PrimFloat.zero
  | Zpos _ => PrimFloat.of_uint63 (Uint63.of_Z z)
  | Zneg p => PrimFloat.opp (PrimFloat.of_uint63 (Uint63.of_Z (Zpos p)))
  end.

(** The dates that occur among the timestamps. *)
Definition dates_of (ts : list stamp) : list (option Z) :=
  map (option_map date) ts.

(** Re-widening: the value the long form records for a timestamp and a
    sensor. *)
Definition keyed (t : stamp) (s : string) (r : record) : bool :=
  stamp_eqb (fst (fst r)) t && String.eqb (snd (fst r)) s.

Definition widen_cell (rs : list record) (t : stamp) (s : string)
  : option cell :=
  option_map snd (find (keyed t s) rs).


(** Every column has one cell per row. *)
Definition rectangular (n : nat) (cs : list column) : Prop :=
  Forall (fun c => length (snd c) = n) cs.

(** ** Examples of the specification

    Day 16071 since the epoch is 1 January 2014. *)

Definition at_time (d : Z) (hours : Z) : stamp :=
  Some (midnight d + hours * 3600000000000).

(** Native daily table with [COSMOS_VWC] = 30, 32 on 1 and 2 January 2014. *)
Definition daily_example : source_table :=
  {| DATE_TIME := Some (Parsed [at_time 16071 0; at_time 16072 0]);
     channels := [("COSMOS_VWC", [Some 30%Q; Some 32%Q])] |}.

(** Sub-daily readings on 1 and 3 January 2014 whose means are 22 and 25;
    [TA] is a channel that is not a VWC channel. *)
Definition sub_example : source_table :=
  {| DATE_TIME := Some (Parsed [at_time 16071 6; at_time 16071 18;
                                at_time 16073 12]);
     channels := [("PROBE1_VWC", [Some 20%Q; Some 24%Q; Some 25%Q]);
                  ("TA", [Some 5%Q; Some 6%Q; Some 7%Q])] |}.

(** A native daily table whose second day has no [COSMOS_VWC] value. *)
Definition daily_gap_example : source_table :=
  {| DATE_TIME := Some (Parsed [at_time 16071 0; at_time 16072 0]);
     channels := [("COSMOS_VWC", [Some 30%Q; None])] |}.

(** A join result with a column that holds no value. *)
Definition empty_column_example : frame :=
  {| index := [at_time 16071 0; at_time 16072 0];
     columns := [("PROBE1_VWC", [None; None]);
                 ("COSMOS_VWC", [Some 30%Q; Some 32%Q])] |}.




(** ** Tables derived from a table *)

(** Boolean row selection [xs[mask]]. *)
Fixpoint compress {A : Type} (mask : list bool) (xs : list A) : list A :=
  match mask, xs with
  | b :: mask', x :: xs' =>
      if b then x :: compress mask' xs' else compress mask' xs'
  | _, _ => []
  end.

Definition compress_column (mask : list bool) (c : column) : column :=
  (fst c, compress mask (snd c)).

(** The native daily table with its [COSMOS_VWC] columns only. *)
Definition only_cosmos (daily : source_table) : source_table :=
  {| DATE_TIME := DATE_TIME daily;
     channels := filter (named "COSMOS_VWC") (channels daily) |}.

(** The sub-daily table with its VWC channels only. *)
Definition vwc_only (sub : source_table) : source_table :=
  {| DATE_TIME := DATE_TIME sub;
     channels := filter is_vwc (channels sub) |}.

(** The rows of a table that have a timestamp. *)
Definition stamped (ts : list stamp) : list bool :=
  map (fun t => negb (is_NaT t)) ts.

Definition without_NaT_rows (ts : list stamp) (cs : list column)
  : source_table :=
  {| DATE_TIME := Some (Parsed (compress (stamped ts) ts));
     channels := map (compress_column (stamped ts)) cs |}.

(** A sub-daily table with a row that has no timestamp. *)
Definition sub_NaT_example : source_table :=
  {| DATE_TIME := Some (Parsed [at_time 16071 6; None; at_time 16071 18]);
     channels := [("PROBE1_VWC", [Some 20%Q; Some 99%Q; Some 24%Q])] |}.


(** A native daily table with a second channel. *)
Definition daily_pe_example : source_table :=
  {| DATE_TIME := Some (Parsed [at_time 16071 0; at_time 16072 0]);
     channels := [("COSMOS_VWC", [Some 30%Q; Some 32%Q]);
                  ("PE", [Some 1%Q; None])] |}.

(** ** [plot_pe_vwc]: the rows both charts are drawn from *)

(** [notna] of a column. *)
Definition notna (xs : list cell) : list bool :=
  map (fun x => negb (is_NaN x)) xs.

Definition and_mask (m m' : list bool) : list bool :=
  map (fun bb => fst bb && snd bb) (combine m m').

(** [notna(columns).all(axis=1)] on a frame of [n] rows. *)
Definition notna_all (n : nat) (cs : list column) : list bool :=
  fold_right (fun c m => and_mask (notna (snd c)) m) (repeat true n) cs.

Definition time_rows (tc : time_column) : nat :=
  match tc with
  | Parsed ts => length ts
  | Unparsed raw => length raw
  end.

(** [len(frame)]. *)
Definition nrows (t : source_table) : nat :=
  match DATE_TIME t with
  | Some tc => time_rows tc
  | None => match channels t with
            | c :: _ => length (snd c)
            | [] => O
            end
  end.

Definition compress_time (mask : list bool) (tc : time_column)
  : time_column :=
  match tc with
  | Parsed ts => Parsed (compress mask ts)
  | Unparsed raw => Unparsed (compress mask raw)
  end.

(** [frame.dropna(subset=names)] for names of measurement columns: a name
    without a column raises; a row is kept when it has a value in every
    column of these names. *)
Definition dropna_subset (names : list string) (t : source_table)
  : result source_table :=
  if forallb (fun n => has_column n (channels t)) names
  then
    let mask :=
      notna_all (nrows t)
                (flat_map (fun n => filter (named n) (channels t)) names) in
    Return {| DATE_TIME := option_map (compress_time mask) (DATE_TIME t);
              channels := map (compress_column mask) (channels t) |}
  else Raise KeyError.


(** Every measurement column has one cell per row. *)
Definition well_formed (t : source_table) : Prop :=
  rectangular (nrows t) (channels t).

Definition no_NaN (xs : list cell) : bool :=
  forallb (fun x => negb (is_NaN x)) xs.

(** Row [i] has a value in every column of [cs]. *)
Definition complete_row (cs : list column) (i : nat) : bool :=
  forallb (fun c => negb (is_NaN (nth i (snd c) None))) cs.

(** A daily table whose second row lacks [PE] and whose third row lacks
    [COSMOS_VWC]. *)
Definition daily_pe_gaps_example : source_table :=
  {| DATE_TIME := Some (Parsed [at_time 16071 0; at_time 16072 0;
                                at_time 16073 0; at_time 16074 0]);
     channels := [("COSMOS_VWC", [Some 30%Q; Some 32%Q; None; Some 31%Q]);
                  ("PE", [Some 1%Q; None; Some 2%Q; Some 3%Q]);
                  ("TA", [None; Some 4%Q; Some 5%Q; Some 6%Q])] |}.


(** ** [season] and the order of the seasons *)

(** A Python dict with integer keys, in the order it is written. *)
Fixpoint get_month {V : Type} (d : list (Z * V)) (k : Z) : option V :=
  match d with
  | [] => None
  | (k', v) :: d' => if k =? k' then Some v else get_month d' k
  end.

Fixpoint get_name {V : Type} (d : list (string * V)) (k : string)
  : option V :=
  match d with
  | [] => None
  | (k', v) :: d' => if String.eqb k k' then Some v else get_name d' k
  end.

Definition seasons : list (Z * string) :=
  [(3, "spring"); (4, "spring"); (5, "spring");
   (6, "summer"); (7, "summer"); (8, "summer");
   (9, "fall"); (10, "fall"); (11, "fall");
   (12, "winter"); (1, "winter"); (2, "winter")].

(** The column [season] adds, from the months [df.DATE_TIME.dt.month]
    (1 to 12, or missing for [NaT]): [Series.map(seasons)] leaves a key
    without entry missing. *)
Definition season (months : list (option Z)) : list (option string) :=
  map (fun m => match m with
                | Some m => get_month seasons m
                | None => None
                end) months.

Definition custom_dict : list (string * Z) :=
  [("winter", 0); ("spring", 1); ("summer", 3); ("fall", 4)].

(** The sort key of [sort_values('season', key=lambda x: x.map(custom_dict))]. *)
Definition season_key (s : option string) : option Z :=
  match s with
  | Some s => get_name custom_dict s
  | None => None
  end.

(** ** The cell a native row reads in the join *)



(** The readings 20 and 24 on 1 January 2014 and 25 on 3 January 2014. *)
Definition sub_f64_example : f64_table :=
  {| F64_DATE_TIME := Some (Parsed [at_time 16071 6; at_time 16071 18;
                                    at_time 16073 12]);
     F64_channels :=
       [("PROBE1_VWC", map f64_of_Z [20; 24; 25]);
        ("TA", map f64_of_Z [5; 6; 7])] |}.

(** The readings 10^16, 1 and -10^16 on one day. *)
Definition large_readings : list Z :=
  [10000000000000000; 1; -10000000000000000].

Definition sub_rounding_example : f64_table :=
  {| F64_DATE_TIME := Some (Parsed [at_time 16071 6; at_time 16071 12;
                                    at_time 16071 18]);
     F64_channels := [("PROBE1_VWC", map f64_of_Z large_readings)] |}.


(** A native daily table with two rows of the same timestamp. *)
Definition daily_repeat_example : source_table :=
  {| DATE_TIME := Some (Parsed [at_time 16071 0; at_time 16071 0]);
     channels := [("COSMOS_VWC", [Some 30%Q; Some 32%Q])] |}.

(** Frame objects as the catalog first holds them: station CHIMN with the
    tables of the scenario, any other station with a gap on the second
    day. *)
Definition example_store : store :=
  fun r station =>
    {| columns_of :=
         if String.eqb station "CHIMN"
         then match r with Daily => daily_example | _ => sub_example end
         else match r with Daily => daily_gap_example | _ => sub_example end;
       index_of := None |}.

(** * Properties *)

(** ** The group keys *)

Lemma insert_key_In (d x : Z) (us : list Z) :
  In x (insert_key d us) <-> x = d \/ In x us.
Proof.
  induction us as [|u us IH]; simpl.
  - intuition.
  - destruct (d <? u) eqn:Hlt; [simpl; intuition|].
    destruct (d =? u) eqn:Heq.
    + apply Z.eqb_eq in Heq. subst u. simpl. intuition.
    + simpl. rewrite IH. intuition.
Qed.

Lemma insert_key_increasing (d : Z) (us : list Z) :
  increasing us -> increasing (insert_key d us).
Proof.
  unfold increasing.
  induction us as [|u us IH]; simpl; intros Hs.
  - repeat constructor.
  - inversion Hs as [|? ? Hs' Hall]; subst.
    destruct (d <? u) eqn:Hlt.
    + apply Z.ltb_lt in Hlt. constructor; [exact Hs|].
      constructor; [exact Hlt|].
      eapply Forall_impl; [|exact Hall]. intros; simpl in *; lia.
    + destruct (d =? u) eqn:Heq; [exact Hs|].
      apply Z.ltb_ge in Hlt. apply Z.eqb_neq in Heq.
      constructor; [auto|].
      apply Forall_forall. intros x Hx.
      apply insert_key_In in Hx. destruct Hx as [->|Hx]; [lia|].
      rewrite Forall_forall in Hall. auto.
Qed.

Lemma increasing_NoDup (us : list Z) : increasing us -> NoDup us.
Proof.
  induction 1 as [|u us Hs IH Hall]; constructor; auto.
  intros Hin. rewrite Forall_forall in Hall.
  specialize (Hall _ Hin). lia.
Qed.

Lemma fold_add_key_In (ks : list (option Z)) (us : list Z) (d : Z) :
  In d (fold_left add_key ks us) <-> In d us \/ In (Some d) ks.
Proof.
  revert us. induction ks as [|k ks IH]; intros us; simpl.
  - intuition.
  - rewrite IH. destruct k as [d'|]; simpl.
    + rewrite insert_key_In. split.
      * intros [[->|H]|H]; auto.
      * intros [H|[H|H]]; auto. injection H as ->. auto.
    + split; [intuition|]. intros [H|[H|H]]; auto. discriminate.
Qed.

Lemma fold_add_key_increasing (ks : list (option Z)) (us : list Z) :
  increasing us -> increasing (fold_left add_key ks us).
Proof.
  revert us. induction ks as [|k ks IH]; intros us Hs; simpl; auto.
  apply IH. destruct k; simpl; auto using insert_key_increasing.
Qed.

Lemma unique_keys_In (ks : list (option Z)) (d : Z) :
  In d (unique_keys ks) <-> In (Some d) ks.
Proof.
  unfold unique_keys. rewrite fold_add_key_In. simpl. intuition.
Qed.

Lemma unique_keys_increasing (ks : list (option Z)) :
  increasing (unique_keys ks).
Proof. apply fold_add_key_increasing. constructor. Qed.

Lemma dates_of_In (ts : list stamp) (d : Z) :
  In (Some d) (dates_of ts) <-> exists t, In (Some t) ts /\ date t = d.
Proof.
  unfold dates_of. rewrite in_map_iff. split.
  - intros [[t|] [Hd Hin]]; simpl in Hd; [|discriminate].
    injection Hd as <-. eauto.
  - intros (t & Hin & <-). exists (Some t). auto.
Qed.

Lemma code_of_In (d : Z) (us : list Z) :
  In d us -> exists g, code_of d us = Some g.
Proof.
  induction us as [|u us IH]; simpl; [tauto|].
  intros Hin. destruct (d =? u) eqn:Heq; [eauto|].
  apply Z.eqb_neq in Heq. destruct Hin as [->|Hin]; [congruence|].
  destruct (IH Hin) as [g ->]. simpl. eauto.
Qed.

Lemma code_of_nth (d : Z) (us : list Z) (g : nat) :
  code_of d us = Some g -> nth_error us g = Some d.
Proof.
  revert g. induction us as [|u us IH]; simpl; intros g; [discriminate|].
  destruct (d =? u) eqn:Heq.
  - apply Z.eqb_eq in Heq. intros [= <-]. simpl. congruence.
  - destruct (code_of d us) as [g'|]; simpl; [|discriminate].
    intros [= <-]. simpl. auto.
Qed.

Lemma nth_error_NoDup_eq {A} (us : list A) (g g' : nat) (d : A) :
  NoDup us -> nth_error us g = Some d -> nth_error us g' = Some d -> g = g'.
Proof.
  intros Hnd Hg Hg'.
  rewrite NoDup_nth_error in Hnd. apply Hnd.
  - apply nth_error_Some. congruence.
  - congruence.
Qed.

(** ** The mean kernel *)

Lemma alter_length {A} (f : A -> A) (i : nat) (l : list A) :
  length (alter f i l) = length l.
Proof.
  revert i. induction l as [|a l IH]; intros [|i]; simpl; auto.
Qed.

Lemma alter_nth_eq {A} (f : A -> A) (i : nat) (l : list A) :
  nth_error (alter f i l) i = option_map f (nth_error l i).
Proof.
  revert i. induction l as [|a l IH]; intros [|i]; simpl; auto.
Qed.

Lemma alter_nth_ne {A} (f : A -> A) (i j : nat) (l : list A) :
  i <> j -> nth_error (alter f i l) j = nth_error l j.
Proof.
  revert i j. induction l as [|a l IH]; intros [|i] [|j] H; simpl; auto.
  congruence.
Qed.

Lemma accumulate_length (rows : list (option nat * cell))
      (acc : list accumulator) :
  length (fold_left accumulate rows acc) = length acc.
Proof.
  revert acc. induction rows as [|[[g|] [x|]] rows IH]; intros acc; simpl;
    rewrite ?IH, ?alter_length; auto.
Qed.

Lemma accumulate_group (rows : list (option nat * cell))
      (acc : list accumulator) (g : nat) (a : accumulator) :
  nth_error acc g = Some a ->
  nth_error (fold_left accumulate rows acc) g =
  Some (fold_left Qplus (flat_map (of_group g) rows) (fst a),
        (snd a + length (flat_map (of_group g) rows))%nat).
Proof.
  revert acc a. induction rows as [|[l x] rows IH]; intros acc a Ha; simpl.
  - rewrite Nat.add_0_r, Ha. destruct a; auto.
  - destruct l as [g'|]; [destruct x as [x|]|]; simpl; auto.
    destruct (Nat.eqb g' g) eqn:Heq.
    + apply Nat.eqb_eq in Heq. subst g'.
      erewrite IH by (rewrite alter_nth_eq, Ha; reflexivity).
      simpl. f_equal. f_equal. lia.
    + apply Nat.eqb_neq in Heq.
      erewrite IH by (rewrite alter_nth_ne by exact Heq; exact Ha).
      reflexivity.
Qed.

Lemma finish_mean (vs : list Q) :
  finish (fold_left Qplus vs 0%Q, (0 + length vs)%nat) = arithmetic_mean vs.
Proof. destruct vs; reflexivity. Qed.

Lemma group_mean_length (n : nat) (labels : list (option nat))
      (xs : list cell) :
  length (group_mean n labels xs) = n.
Proof.
  unfold group_mean.
  rewrite length_map, accumulate_length, repeat_length. reflexivity.
Qed.

Lemma group_mean_nth (n g : nat) (labels : list (option nat))
      (xs : list cell) :
  (g < n)%nat ->
  nth_error (group_mean n labels xs) g =
  Some (arithmetic_mean (flat_map (of_group g) (combine labels xs))).
Proof.
  intros Hg. unfold group_mean. rewrite nth_error_map.
  erewrite accumulate_group by (apply nth_error_repeat; exact Hg).
  simpl. rewrite finish_mean. reflexivity.
Qed.

Lemma of_group_on_date (us : list Z) (g : nat) (d : Z)
      (ts : list stamp) (xs : list cell) :
  NoDup us ->
  nth_error us g = Some d ->
  (forall t, In (Some t) ts -> In (date t) us) ->
  flat_map (of_group g) (combine (fst (factorize_with us (dates_of ts))) xs) =
  observations d ts xs.
Proof.
  intros Hnd Hg. unfold observations. revert xs.
  induction ts as [|t ts IH]; intros xs Hin; [reflexivity|].
  destruct xs as [|x xs]; [reflexivity|].
  simpl. rewrite <- IH by (intros; apply Hin; right; assumption).
  f_equal.
  destruct t as [t|]; [|reflexivity]. simpl.
  destruct (code_of_In (date t) us) as [g' Hg']; [apply Hin; left; reflexivity|].
  rewrite Hg'. destruct x as [x|]; [|reflexivity]. simpl.
  apply code_of_nth in Hg'.
  destruct (Nat.eqb g' g) eqn:Hgg, (date t =? d) eqn:Hdd; auto.
  - apply Nat.eqb_eq in Hgg. apply Z.eqb_neq in Hdd. congruence.
  - apply Nat.eqb_neq in Hgg. apply Z.eqb_eq in Hdd. subst d.
    destruct Hgg. eapply nth_error_NoDup_eq; eauto.
Qed.

(** The aggregate, read off the input: its keys are the dates of the
    timestamps, its columns the [_VWC] channels, its cells the means. *)
Lemma daily_aggregate_parsed (sub : source_table) (ts : list stamp) :
  DATE_TIME sub = Some (Parsed ts) ->
  daily_aggregate sub =
  Return
    {| index := map (fun d => Some (midnight d)) (unique_keys (dates_of ts));
       columns :=
         map (fun c =>
                (fst c,
                 map (fun d => arithmetic_mean (observations d ts (snd c)))
                     (unique_keys (dates_of ts))))
             (filter is_vwc (channels sub)) |}.
Proof.
  intros Hts. unfold daily_aggregate. rewrite Hts.
  change (map (option_map date) ts) with (dates_of ts).
  unfold factorize, factorize_with.
  set (us := unique_keys (dates_of ts)).
  f_equal. f_equal.
  apply map_ext. intros c. f_equal.
  apply nth_error_ext. intros g. rewrite nth_error_map.
  destruct (nth_error us g) as [d|] eqn:Hg; simpl.
  - rewrite group_mean_nth by (apply nth_error_Some; congruence).
    f_equal. f_equal.
    apply (of_group_on_date us g d ts (snd c)); auto.
    + apply increasing_NoDup, unique_keys_increasing.
    + intros t Hin. apply unique_keys_In, dates_of_In. eauto.
  - apply nth_error_None. rewrite group_mean_length.
    apply nth_error_None. exact Hg.
Qed.

(** ** Daily Aggregator *)

Lemma accumulate_f64_length (rows : list (option nat * float))
      (acc : list f64_accumulator) :
  length (fold_left accumulate_f64 rows acc) = length acc.
Proof.
  revert acc. induction rows as [|[[g|] x] rows IH]; intros acc; simpl;
    [reflexivity| |apply IH].
  destruct (PrimFloat.is_nan x); rewrite IH, ?alter_length; reflexivity.
Qed.

Lemma accumulate_f64_group (rows : list (option nat * float))
      (acc : list f64_accumulator) (g : nat) (a : f64_accumulator) :
  nth_error acc g = Some a ->
  nth_error (fold_left accumulate_f64 rows acc) g =
  Some (fold_left kahan_add (flat_map (of_group_f64 g) rows) (fst a),
        (snd a + length (flat_map (of_group_f64 g) rows))%nat).
Proof.
  revert acc a. induction rows as [|[l x] rows IH]; intros acc a Ha; simpl.
  - rewrite Nat.add_0_r, Ha. destruct a; reflexivity.
  - destruct l as [g'|]; [|auto].
    destruct (PrimFloat.is_nan x); [auto|].
    destruct (Nat.eqb g' g) eqn:Heq.
    + apply Nat.eqb_eq in Heq. subst g'.
      erewrite IH by (rewrite alter_nth_eq, Ha; reflexivity).
      simpl. f_equal. f_equal. lia.
    + apply Nat.eqb_neq in Heq.
      erewrite IH by (rewrite alter_nth_ne by exact Heq; exact Ha).
      reflexivity.
Qed.

Lemma finish_f64_mean (vs : list float) :
  finish_f64 (fold_left kahan_add vs (PrimFloat.zero, PrimFloat.zero),
              (0 + length vs)%nat) = f64_mean vs.
Proof. destruct vs; reflexivity. Qed.

Lemma group_mean_f64_length (n : nat) (labels : list (option nat))
      (xs : list float) :
  length (group_mean_f64 n labels xs) = n.
Proof.
  unfold group_mean_f64.
  rewrite length_map, accumulate_f64_length, repeat_length. reflexivity.
Qed.

Lemma group_mean_f64_nth (n g : nat) (labels : list (option nat))
      (xs : list float) :
  (g < n)%nat ->
  nth_error (group_mean_f64 n labels xs) g =
  Some (f64_mean (flat_map (of_group_f64 g) (combine labels xs))).
Proof.
  intros Hg. unfold group_mean_f64. rewrite nth_error_map.
  erewrite accumulate_f64_group by (apply nth_error_repeat; exact Hg).
  simpl. rewrite finish_f64_mean. reflexivity.
Qed.

Lemma of_group_f64_on_date (us : list Z) (g : nat) (d : Z)
      (ts : list stamp) (xs : list float) :
  NoDup us ->
  nth_error us g = Some d ->
  (forall t, In (Some t) ts -> In (date t) us) ->
  flat_map (of_group_f64 g)
           (combine (fst (factorize_with us (dates_of ts))) xs) =
  observations_f64 d ts xs.
Proof.
  intros Hnd Hg. unfold observations_f64. revert xs.
  induction ts as [|t ts IH]; intros xs Hin; [reflexivity|].
  destruct xs as [|x xs]; [reflexivity|].
  simpl. rewrite <- IH by (intros; apply Hin; right; assumption).
  f_equal.
  destruct t as [t|]; [|reflexivity]. simpl.
  destruct (code_of_In (date t) us) as [g' Hg']; [apply Hin; left; reflexivity|].
  rewrite Hg'. destruct (PrimFloat.is_nan x); [reflexivity|].
  apply code_of_nth in Hg'.
  destruct (Nat.eqb g' g) eqn:Hgg, (date t =? d) eqn:Hdd; auto.
  - apply Nat.eqb_eq in Hgg. apply Z.eqb_neq in Hdd. congruence.
  - apply Nat.eqb_neq in Hgg. apply Z.eqb_eq in Hdd. subst d.
    destruct Hgg. eapply nth_error_NoDup_eq; eauto.
Qed.

(** The [float64] aggregate, read off the input. *)
Lemma daily_aggregate_f64_parsed (sub : f64_table) (ts : list stamp) :
  F64_DATE_TIME sub = Some (Parsed ts) ->
  daily_aggregate_f64 sub =
  Return
    {| f64_index :=
         map (fun d => Some (midnight d)) (unique_keys (dates_of ts));
       f64_columns :=
         map (fun c =>
                (fst c,
                 map (fun d => f64_mean (observations_f64 d ts (snd c)))
                     (unique_keys (dates_of ts))))
             (filter is_vwc_f64 (F64_channels sub)) |}.
Proof.
  intros Hts. unfold daily_aggregate_f64. rewrite Hts.
  change (map (option_map date) ts) with (dates_of ts).
  unfold factorize, factorize_with.
  set (us := unique_keys (dates_of ts)).
  f_equal. f_equal.
  apply map_ext. intros c. f_equal.
  apply nth_error_ext. intros g. rewrite nth_error_map.
  destruct (nth_error us g) as [d|] eqn:Hg; simpl.
  - rewrite group_mean_f64_nth by (apply nth_error_Some; congruence).
    f_equal. f_equal.
    apply (of_group_f64_on_date us g d ts (snd c)); auto.
    + apply increasing_NoDup, unique_keys_increasing.
    + intros t Hin. apply unique_keys_In, dates_of_In. eauto.
  - apply nth_error_None. rewrite group_mean_f64_length.
    apply nth_error_None. exact Hg.
Qed.

(** C3, as the code has it. Daily Aggregator contract: for a sub-daily
    table with a parsed timestamp column, the aggregate has one row per
    distinct calendar date that occurs among the timestamps (in
    chronological order, keyed by the midnight of the date); its columns are
    the channels whose name ends in [_VWC], the others do not appear; the
    cell of a channel on a date is the [float64] mean of the non-missing
    observations of the channel on that date, that is their compensated
    sum in row order divided by their number, each operation rounded, and it
    is [NaN] when there is no such observation.  Two readings 20 and 24 on
    one day give 22. *)
Theorem C3_daily_aggregator_contract :
  (forall (sub : f64_table) (ts : list stamp),
      F64_DATE_TIME sub = Some (Parsed ts) ->
      exists days : list Z,
        increasing days /\ NoDup days /\
        (forall d, In d days <-> exists t, In (Some t) ts /\ date t = d) /\
        daily_aggregate_f64 sub =
        Return
          {| f64_index := map (fun d => Some (midnight d)) days;
             f64_columns :=
               map (fun c =>
                      (fst c,
                       map (fun d =>
                              f64_mean (observations_f64 d ts (snd c)))
                           days))
                   (filter is_vwc_f64 (F64_channels sub)) |}) /\
  (forall (d : Z) (ts : list stamp) (xs : list float),
      observations_f64 d ts xs = [] ->
      f64_mean (observations_f64 d ts xs) = PrimFloat.nan) /\
  daily_aggregate_f64 sub_f64_example =
  Return {| f64_index := [at_time 16071 0; at_time 16073 0];
            f64_columns :=
              [("PROBE1_VWC", [f64_of_Z 22; f64_of_Z 25])] |}.
Proof.
  split; [|split].
  - intros sub ts Hts. exists (unique_keys (dates_of ts)).
    split; [apply unique_keys_increasing|].
    split; [apply increasing_NoDup, unique_keys_increasing|].
    split.
    + intros d. rewrite unique_keys_In. apply dates_of_In.
    + apply daily_aggregate_f64_parsed. exact Hts.
  - intros d ts xs ->. reflexivity.
  - vm_compute. reflexivity.
Qed.

Lemma C3_contract_witness :
  exists days : list Z,
    increasing days /\ NoDup days /\
    (forall d, In d days <->
               exists t, In (Some t)
                            [at_time 16071 6; at_time 16071 12;
                             at_time 16071 18] /\ date t = d) /\
    daily_aggregate_f64 sub_rounding_example =
    Return
      {| f64_index := map (fun d => Some (midnight d)) days;
         f64_columns :=
           map (fun c =>
                  (fst c,
                   map (fun d =>
                          f64_mean
                            (observations_f64 d
                               [at_time 16071 6; at_time 16071 12;
                                at_time 16071 18] (snd c)))
                       days))
               (filter is_vwc_f64 (F64_channels sub_rounding_example)) |}.
Proof.
  apply (proj1 C3_daily_aggregator_contract sub_rounding_example).
  reflexivity.
Defined.

(** The readings 10^16, 1 and -10^16 of one day have the arithmetic mean
    1/3; the cell of the aggregate is 0: the 1 is lost when it is added to
    10^16. *)
Lemma C3_rounded_mean_counterexample :
  daily_aggregate_f64 sub_rounding_example =
  Return {| f64_index := [at_time 16071 0];
            f64_columns := [("PROBE1_VWC", [f64_of_Z 0])] |} /\
  exists q : Q,
    arithmetic_mean (map inject_Z large_readings) = Some q /\
    (q == 1 # 3)%Q /\ ~ (q == inject_Z 0)%Q.
Proof.
  split; [vm_compute; reflexivity|].
  eexists. split; [reflexivity|]. split; [reflexivity|].
  intros H. vm_compute in H. discriminate.
Qed.


Lemma read_stamps_length (raw : list text_cell) (ts : list stamp) :
  read_stamps raw = Some ts -> length ts = length raw.
Proof.
  revert ts. induction raw as [|[txt [t|]] raw IH]; intros ts; simpl.
  - intros [= <-]. reflexivity.
  - destruct (read_stamps raw) as [ts'|]; [|discriminate].
    intros [= <-]. simpl. rewrite (IH ts') by reflexivity. reflexivity.
  - discriminate.
Qed.




(** ** Series Aligner *)

Lemma stamp_eqb_eq (a b : stamp) : stamp_eqb a b = true <-> a = b.
Proof.
  destruct a as [x|], b as [y|]; simpl; try (split; congruence).
  rewrite Z.eqb_eq. split; congruence.
Qed.

Lemma locate_absent (k : stamp) (ix : list stamp) :
  ~ In k ix -> locate k ix = None.
Proof.
  induction ix as [|k' ix IH]; simpl; intros Hn; [reflexivity|].
  destruct (stamp_eqb k k') eqn:Heq.
  - apply stamp_eqb_eq in Heq. subst. tauto.
  - rewrite IH by tauto. reflexivity.
Qed.

Lemma named_eq (n : string) (c : column) : named n c = true <-> n = fst c.
Proof. unfold named. apply String.eqb_eq. Qed.

Lemma has_column_In (n : string) (cs : list column) :
  has_column n cs = true <-> exists xs, In (n, xs) cs.
Proof.
  unfold has_column. rewrite existsb_exists. split.
  - intros ([n' xs] & Hin & Hn). apply named_eq in Hn. simpl in Hn. subst.
    eauto.
  - intros [xs Hin]. exists (n, xs). split; [assumption|].
    apply named_eq. reflexivity.
Qed.

(** The columns a selection returns. *)
Lemma getitem_In (names : list string) (cs : list column) (c : column) :
  In c (flat_map (fun n => filter (named n) cs) names) <->
  In (fst c) names /\ In c cs.
Proof.
  rewrite in_flat_map. split.
  - intros (n & Hn & Hc). apply filter_In in Hc. destruct Hc as [Hc Heq].
    apply named_eq in Heq. subst. auto.
  - intros [Hn Hc]. exists (fst c). split; [assumption|].
    apply filter_In. split; [assumption|]. apply named_eq. reflexivity.
Qed.


Lemma set_index_inv (daily : source_table) (d : frame) :
  set_index daily = Return d ->
  exists tc ts, DATE_TIME daily = Some tc /\
                astype_datetime tc = Return ts /\
                d = {| index := ts; columns := channels daily |}.
Proof.
  unfold set_index. destruct (DATE_TIME daily) as [tc|]; [|discriminate].
  destruct (astype_datetime tc) as [ts|e] eqn:Hts; simpl; [|discriminate].
  intros [= <-]. eauto.
Qed.


(** What a successful join and selection went through. *)
Lemma daily_joined_inv (daily sub : source_table) (j : frame) :
  daily_joined daily sub = Return j ->
  exists ts agg,
    set_index daily = Return {| index := ts; columns := channels daily |} /\
    daily_aggregate sub = Return agg /\
    (forall c, In c (channels daily) ->
               has_column (fst c) (columns agg) = false) /\
    (forall n, In n (target_columns sub) ->
               has_column n (channels daily ++
                             map (reindex agg ts) (columns agg)) = true) /\
    j = {| index := ts;
           columns :=
             flat_map (fun n => filter (named n)
                                       (channels daily ++
                                        map (reindex agg ts) (columns agg)))
                      (target_columns sub) |}.
Proof.
  unfold daily_joined.
  destruct (set_index daily) as [d|e] eqn:Hd; simpl; [|discriminate].
  destruct (set_index_inv _ _ Hd) as (tc & ts & _ & _ & ->).
  destruct (daily_aggregate sub) as [agg|e]; simpl; [|discriminate].
  unfold join. simpl.
  destruct (existsb (fun c => has_column (fst c) (columns agg))
                    (channels daily)) eqn:Hov; simpl; [discriminate|].
  unfold getitem. simpl.
  destruct (forallb (fun n => has_column n (channels daily ++
                                map (reindex agg ts) (columns agg)))
                    (target_columns sub)) eqn:Hall; [|discriminate].
  intros [= <-]. exists ts, agg.
  split; [reflexivity|]. split; [reflexivity|].
  split; [|split; [|reflexivity]].
  - intros c Hc. destruct (has_column (fst c) (columns agg)) eqn:Hc'; auto.
    assert (existsb (fun c => has_column (fst c) (columns agg))
                    (channels daily) = true) as Hex
        by (apply existsb_exists; eauto).
    congruence.
  - rewrite forallb_forall in Hall. exact Hall.
Qed.

Lemma aligned_inv (daily sub : source_table) (w : wide_table) :
  aligned daily sub = Return w ->
  exists j, daily_joined daily sub = Return j /\
            w = dropna_columns (reset_index j).
Proof.
  unfold aligned. destruct (daily_joined daily sub) as [j|e]; simpl.
  - intros [= <-]. eauto.
  - discriminate.
Qed.

Lemma vwc_name (sub : source_table) (n : string) :
  In n (map fst (filter is_vwc (channels sub))) ->
  endswith vwc_suffix n = true.
Proof.
  rewrite in_map_iff. intros (c & <- & Hc).
  apply filter_In in Hc. apply Hc.
Qed.

Lemma target_columns_In (sub : source_table) (n : string) :
  In n (target_columns sub) <->
  In n (map fst (filter is_vwc (channels sub))) \/ n = "COSMOS_VWC".
Proof.
  unfold target_columns. rewrite in_app_iff. simpl. intuition.
Qed.

(** C1, as the code has it. The join is a left join on the index of the
    native daily table: the aligned table has the rows of the native daily
    table, in its order, and no other row.  Each of its columns is a column
    of the native daily table unchanged, or a column of the aggregate read at
    the timestamps of the native daily table, with a missing cell wherever
    the aggregate has no row for the timestamp.  The timestamps of the
    native daily table are those the assignment of the index reads from
    its [DATE_TIME] column.  (The timestamp column itself is dropped with
    the other empty columns when no row has a timestamp.) *)
Theorem C1_join_keeps_native_daily_rows
        (daily sub : source_table) (w : wide_table) :
  aligned daily sub = Return w ->
  exists ts agg,
    set_index daily = Return {| index := ts; columns := channels daily |} /\
    daily_aggregate sub = Return agg /\
    stamps w = (if all_NaT ts then None else Some ts) /\
    forall n xs,
      In (n, xs) (sensors w) ->
      In (n, xs) (channels daily) \/
      exists ys,
        In (n, ys) (columns agg) /\
        length xs = length ts /\
        forall i k,
          nth_error ts i = Some k ->
          nth_error xs i = Some (take_row (index agg) ys k) /\
          (~ In k (index agg) -> nth_error xs i = Some None).
Proof.
  intros Hw.
  destruct (aligned_inv _ _ _ Hw) as (j & Hj & ->).
  destruct (daily_joined_inv _ _ _ Hj) as (ts & agg & Hts & Hagg & _ & _ & ->).
  exists ts, agg. split; [assumption|]. split; [assumption|].
  split; [reflexivity|].
  intros n xs Hin. simpl in Hin.
  apply filter_In in Hin. destruct Hin as [Hin _].
  apply getitem_In in Hin. destruct Hin as [_ Hin].
  apply in_app_iff in Hin. destruct Hin as [Hin|Hin]; [left; assumption|].
  right. apply in_map_iff in Hin. destruct Hin as ([n' ys] & Heq & Hin).
  unfold reindex in Heq. simpl in Heq. injection Heq as -> <-.
  exists ys. split; [assumption|]. split; [apply length_map|].
  intros i k Hk.
  assert (nth_error (map (take_row (index agg) ys) ts) i =
          Some (take_row (index agg) ys k)) as Hcell
      by (apply map_nth_error; exact Hk).
  split; [exact Hcell|].
  intros Hn. rewrite Hcell. unfold take_row.
  rewrite locate_absent by exact Hn. reflexivity.
Qed.

Lemma C1_native_rows_witness :
  exists ts agg,
    set_index daily_example =
    Return {| index := ts; columns := channels daily_example |} /\
    daily_aggregate sub_example = Return agg /\
    stamps (mkWide (Some [at_time 16071 0; at_time 16072 0])
                   [("PROBE1_VWC", [Some (44 # 2)%Q; None]);
                    ("COSMOS_VWC", [Some 30%Q; Some 32%Q])]) =
    (if all_NaT ts then None else Some ts) /\
    forall n xs,
      In (n, xs) [("PROBE1_VWC", [Some (44 # 2)%Q; None]);
                  ("COSMOS_VWC", [Some 30%Q; Some 32%Q])] ->
      In (n, xs) (channels daily_example) \/
      exists ys,
        In (n, ys) (columns agg) /\
        length xs = length ts /\
        forall i k,
          nth_error ts i = Some k ->
          nth_error xs i = Some (take_row (index agg) ys k) /\
          (~ In k (index agg) -> nth_error xs i = Some None).
Proof.
  apply (C1_join_keeps_native_daily_rows daily_example sub_example).
  reflexivity.
Defined.

(** The scenario of the specification: 3 January 2014 is a date of the
    aggregate and is not a row of the aligned table. *)
Lemma C1_outer_join_counterexample :
  exists agg w,
    daily_aggregate sub_example = Return agg /\
    In (at_time 16073 0) (index agg) /\
    aligned daily_example sub_example = Return w /\
    stamps w = Some [at_time 16071 0; at_time 16072 0] /\
    ~ In (at_time 16073 0) [at_time 16071 0; at_time 16072 0].
Proof.
  eexists. eexists.
  split; [reflexivity|]. split; [right; left; reflexivity|].
  split; [reflexivity|]. split; [reflexivity|].
  intros [H|[H|[]]]; discriminate.
Qed.

(** C4. Column invariant of the Series Aligner: after the selection the
    column names are exactly the [_VWC] channel names of the sub-daily table
    and [COSMOS_VWC]; the aligned table keeps those of these columns that
    hold a value; so every retained name ends in [_VWC] and is a sub-daily
    VWC channel or [COSMOS_VWC]. *)
Theorem C4_column_invariant (daily sub : source_table) (w : wide_table) :
  aligned daily sub = Return w ->
  exists j,
    daily_joined daily sub = Return j /\
    (forall n, In n (map fst (columns j)) <->
               In n (map fst (filter is_vwc (channels sub))) \/
               n = "COSMOS_VWC") /\
    sensors w = filter (fun c => negb (all_NaN (snd c))) (columns j) /\
    (forall n, In n (map fst (sensors w)) ->
               endswith vwc_suffix n = true /\
               (In n (map fst (filter is_vwc (channels sub))) \/
                n = "COSMOS_VWC")).
Proof.
  intros Hw.
  destruct (aligned_inv _ _ _ Hw) as (j & Hj & ->).
  exists j. split; [assumption|].
  destruct (daily_joined_inv _ _ _ Hj)
    as (ts & agg & Hts & Hagg & _ & Hhas & ->). simpl.
  assert (forall n,
             In n (map fst
                       (flat_map (fun n => filter (named n)
                                    (channels daily ++
                                     map (reindex agg ts) (columns agg)))
                                 (target_columns sub))) <->
             In n (map fst (filter is_vwc (channels sub))) \/
             n = "COSMOS_VWC") as Hnames.
  { intros n. rewrite <- target_columns_In, in_map_iff. split.
    - intros (c & <- & Hc). apply getitem_In in Hc. apply Hc.
    - intros Hn. destruct (proj1 (has_column_In _ _) (Hhas n Hn)) as [xs Hxs].
      exists (n, xs). split; [reflexivity|].
      apply getitem_In. auto. }
  split; [exact Hnames|]. split; [reflexivity|].
  intros n Hn.
  assert (In n (map fst (filter is_vwc (channels sub))) \/
          n = "COSMOS_VWC") as Hor.
  { apply Hnames. rewrite in_map_iff in *.
    destruct Hn as (c & <- & Hc). apply filter_In in Hc.
    exists c. tauto. }
  split; [|exact Hor].
  destruct Hor as [Hv| ->]; [eapply vwc_name; eauto|reflexivity].
Qed.

Lemma C4_column_invariant_witness :
  exists j,
    daily_joined daily_example sub_example = Return j /\
    (forall n, In n (map fst (columns j)) <->
               In n (map fst (filter is_vwc (channels sub_example))) \/
               n = "COSMOS_VWC") /\
    [("PROBE1_VWC", [Some (44 # 2)%Q; None]);
     ("COSMOS_VWC", [Some 30%Q; Some 32%Q])] =
    filter (fun c => negb (all_NaN (snd c))) (columns j) /\
    (forall n, In n ["PROBE1_VWC"; "COSMOS_VWC"] ->
               endswith vwc_suffix n = true /\
               (In n (map fst (filter is_vwc (channels sub_example))) \/
                n = "COSMOS_VWC")).
Proof.
  apply (C4_column_invariant
           daily_example sub_example
           (mkWide (Some [at_time 16071 0; at_time 16072 0])
                   [("PROBE1_VWC", [Some (44 # 2)%Q; None]);
                    ("COSMOS_VWC", [Some 30%Q; Some 32%Q])])).
  reflexivity.
Defined.



(** ** Reshaper *)

Lemma nth_error_combine {A B} (l : list A) (l' : list B) (i : nat)
      (a : A) (b : B) :
  nth_error (combine l l') i = Some (a, b) <->
  nth_error l i = Some a /\ nth_error l' i = Some b.
Proof.
  revert l' i. induction l as [|x l IH]; intros [|y l'] [|i]; simpl;
    try (split; [discriminate|intros [? ?]; discriminate]).
  - split; [intros [= -> ->]; auto|intros [[= ->] [= ->]]; reflexivity].
  - apply IH.
Qed.

Lemma In_combine_nth {A B} (l : list A) (l' : list B) (a : A) (b : B) :
  In (a, b) (combine l l') <->
  exists i, nth_error l i = Some a /\ nth_error l' i = Some b.
Proof.
  split.
  - intros Hin. apply In_nth_error in Hin. destruct Hin as [i Hi].
    exists i. apply nth_error_combine. exact Hi.
  - intros [i Hi]. apply nth_error_combine in Hi.
    eapply nth_error_In; eauto.
Qed.

Lemma melt_column_length (ts : list stamp) (c : column) :
  length (snd c) = length ts -> length (melt_column ts c) = length ts.
Proof.
  intros H. unfold melt_column. rewrite length_map, length_combine. lia.
Qed.

Lemma melt_column_nth (ts : list stamp) (n : string) (xs : list cell)
      (i : nat) (t : stamp) (x : cell) :
  nth_error ts i = Some t -> nth_error xs i = Some x ->
  nth_error (melt_column ts (n, xs)) i = Some (t, n, x).
Proof.
  intros Ht Hx. unfold melt_column. simpl.
  rewrite (map_nth_error _ i (combine ts xs) (d := (t, x)));
    [reflexivity|].
  apply nth_error_combine. auto.
Qed.

Lemma melt_length (ts : list stamp) (cs : list column) :
  rectangular (length ts) cs ->
  length (flat_map (melt_column ts) cs) = (length cs * length ts)%nat.
Proof.
  intros Hr. apply flat_map_constant_length. intros c Hc.
  apply melt_column_length. unfold rectangular in Hr.
  rewrite Forall_forall in Hr. auto.
Qed.

Lemma melt_nth (ts : list stamp) (cs : list column) (j i : nat)
      (n : string) (xs : list cell) (t : stamp) (x : cell) :
  rectangular (length ts) cs ->
  nth_error cs j = Some (n, xs) ->
  nth_error ts i = Some t ->
  nth_error xs i = Some x ->
  nth_error (flat_map (melt_column ts) cs) (j * length ts + i) =
  Some (t, n, x).
Proof.
  intros Hr Hj Ht Hx. revert j Hj.
  induction cs as [|c cs IH]; intros [|j] Hj; simpl in *; try discriminate.
  - injection Hj as ->. inversion Hr; subst. simpl in *.
    rewrite nth_error_app1.
    + apply melt_column_nth; assumption.
    + rewrite melt_column_length by assumption.
      apply nth_error_Some. congruence.
  - inversion Hr; subst.
    rewrite nth_error_app2; rewrite melt_column_length by assumption;
      [|lia].
    replace (length ts + j * length ts + i - length ts)%nat
      with (j * length ts + i)%nat by lia.
    apply IH; assumption.
Qed.

(** The records of the long form are the cells of the wide table. *)
Lemma melt_In (ts : list stamp) (cs : list column)
      (t : stamp) (n : string) (x : cell) :
  In (t, n, x) (flat_map (melt_column ts) cs) <->
  exists xs i, In (n, xs) cs /\
               nth_error ts i = Some t /\ nth_error xs i = Some x.
Proof.
  rewrite in_flat_map. unfold melt_column. split.
  - intros ([n' xs] & Hc & Hin). apply in_map_iff in Hin.
    destruct Hin as ([t' x'] & Heq & Hin). simpl in Heq.
    injection Heq as -> -> ->.
    apply In_combine_nth in Hin. destruct Hin as [i Hi].
    exists xs, i. tauto.
  - intros (xs & i & Hc & Ht & Hx). exists (n, xs). split; [assumption|].
    apply in_map_iff. exists (t, x). split; [reflexivity|].
    apply In_combine_nth. eauto.
Qed.

Lemma melt_inv (w : wide_table) (rs : list record) :
  melt w = Return rs ->
  exists ts, stamps w = Some ts /\ rs = flat_map (melt_column ts) (sensors w).
Proof.
  unfold melt. destruct (stamps w) as [ts|]; [|discriminate].
  intros [= <-]. eauto.
Qed.

Lemma column_functional (cs : list column) (n : string) (xs ys : list cell) :
  NoDup (map fst cs) -> In (n, xs) cs -> In (n, ys) cs -> xs = ys.
Proof.
  induction cs as [|c cs IH]; simpl; [tauto|].
  intros Hnd Hx Hy. inversion Hnd as [|? ? Hnot Hnd']; subst.
  destruct Hx as [->|Hx], Hy as [Hy|Hy].
  - congruence.
  - destruct Hnot. simpl. apply in_map_iff. exists (n, ys). auto.
  - subst c. destruct Hnot. simpl. apply in_map_iff. exists (n, xs). auto.
  - auto.
Qed.

Lemma all_NaN_value (xs : list cell) (i : nat) (v : Q) :
  nth_error xs i = Some (Some v) -> all_NaN xs = false.
Proof.
  intros Hv. destruct (all_NaN xs) eqn:Hall; [|reflexivity].
  unfold all_NaN in Hall. rewrite forallb_forall in Hall.
  apply nth_error_In in Hv. apply Hall in Hv. discriminate.
Qed.

(** C2, as the code has it. [melt] does not filter: the long form holds
    exactly one record for every cell of the aligned table, missing or not,
    column after column and row after row, and the record carries the
    timestamp of the row, the name of the column and the value of the cell
    (missing for a missing cell). *)
Theorem C2_one_record_per_cell (w : wide_table) (rs : list record) :
  melt w = Return rs ->
  exists ts,
    stamps w = Some ts /\
    (rectangular (length ts) (sensors w) ->
     length rs = (length (sensors w) * length ts)%nat /\
     forall j i n xs t x,
       nth_error (sensors w) j = Some (n, xs) ->
       nth_error ts i = Some t ->
       nth_error xs i = Some x ->
       nth_error rs (j * length ts + i) = Some (t, n, x)).
Proof.
  intros Hm. destruct (melt_inv _ _ Hm) as (ts & Hts & ->).
  exists ts. split; [assumption|]. intros Hr.
  split; [apply melt_length; assumption|].
  intros j i n xs t x. apply melt_nth. assumption.
Qed.

Lemma C2_one_record_per_cell_witness :
  exists rs,
    melt (reset_index empty_column_example) = Return rs /\
    length rs = 4%nat /\
    nth_error rs 1 = Some (at_time 16072 0, "PROBE1_VWC", None) /\
    nth_error rs 3 = Some (at_time 16072 0, "COSMOS_VWC", Some 32%Q).
Proof.
  eexists. split; [reflexivity|].
  destruct (C2_one_record_per_cell (reset_index empty_column_example) _
                                   eq_refl) as (ts & Hts & Hcells).
  injection Hts as <-.
  destruct Hcells as [Hlen Hnth]; [repeat constructor|].
  split; [exact Hlen|]. split.
  - exact (Hnth 0%nat 1%nat _ _ _ _ eq_refl eq_refl eq_refl).
  - exact (Hnth 1%nat 1%nat _ _ _ _ eq_refl eq_refl eq_refl).
Defined.

(** In the scenario of the specification the cell of [PROBE1_VWC] on
    2 January 2014 is missing and has a record in the long form. *)
Lemma C2_missing_cell_counterexample :
  exists w rs,
    aligned daily_example sub_example = Return w /\
    In ("PROBE1_VWC", [Some (44 # 2)%Q; None]) (sensors w) /\
    melt w = Return rs /\
    In (at_time 16072 0, "PROBE1_VWC", None) rs.
Proof.
  eexists. eexists.
  split; [reflexivity|]. split; [left; reflexivity|].
  split; [reflexivity|]. right. left. reflexivity.
Qed.

(** C5, as the code has it. [dropna(axis=1, how='all')] prunes columns
    only: the table that is reshaped holds exactly the columns of the join
    result that have at least one value, each with all its rows; a column
    name whose columns hold no value is not a column of that table and no
    record of the long form carries it. *)
Theorem C5_empty_columns_pruned (j : frame) :
  (forall c, In c (sensors (dropna_columns (reset_index j))) <->
             In c (columns j) /\ all_NaN (snd c) = false) /\
  (forall n,
      (forall xs, In (n, xs) (columns j) -> all_NaN xs = true) ->
      ~ In n (map fst (sensors (dropna_columns (reset_index j)))) /\
      forall rs,
        melt (dropna_columns (reset_index j)) = Return rs ->
        forall t v, ~ In (t, n, v) rs).
Proof.
  assert (forall c, In c (sensors (dropna_columns (reset_index j))) <->
                    In c (columns j) /\ all_NaN (snd c) = false) as Hkeep.
  { intros c. simpl. rewrite filter_In, negb_true_iff. reflexivity. }
  split; [exact Hkeep|].
  intros n Hempty.
  assert (forall xs, ~ In (n, xs) (sensors (dropna_columns (reset_index j))))
    as Hgone.
  { intros xs Hin. apply Hkeep in Hin. destruct Hin as [Hin Hval].
    apply Hempty in Hin. simpl in Hval. congruence. }
  split.
  - rewrite in_map_iff. intros ([n' xs] & Heq & Hin). simpl in Heq. subst n'.
    exact (Hgone _ Hin).
  - intros rs Hm t v Hin.
    destruct (melt_inv _ _ Hm) as (ts & _ & ->).
    apply melt_In in Hin. destruct Hin as (xs & i & Hc & _).
    exact (Hgone _ Hc).
Qed.

Lemma C5_empty_columns_witness :
  ~ In "PROBE1_VWC"
       (map fst (sensors (dropna_columns (reset_index empty_column_example)))) /\
  forall rs,
    melt (dropna_columns (reset_index empty_column_example)) = Return rs ->
    forall t v, ~ In (t, "PROBE1_VWC", v) rs.
Proof.
  apply (proj2 (C5_empty_columns_pruned empty_column_example) "PROBE1_VWC").
  intros xs [H|[H|[]]].
  - injection H as <-. reflexivity.
  - discriminate.
Defined.

(** On 2 January 2014 neither channel has a value: the row of the join
    result is entirely missing, it stays in the table and has its records in
    the long form. *)
Lemma C5_missing_row_counterexample :
  exists j rs,
    daily_joined daily_gap_example sub_example = Return j /\
    nth_error (index j) 1 = Some (at_time 16072 0) /\
    (forall c, In c (columns j) -> nth_error (snd c) 1 = Some None) /\
    stamps (dropna_columns (reset_index j)) =
    Some [at_time 16071 0; at_time 16072 0] /\
    melt (dropna_columns (reset_index j)) = Return rs /\
    In (at_time 16072 0, "COSMOS_VWC", None) rs.
Proof.
  eexists. eexists.
  split; [reflexivity|]. split; [reflexivity|].
  split; [intros c [<-|[<-|[]]]; reflexivity|].
  split; [reflexivity|]. split; [reflexivity|].
  right. right. right. left. reflexivity.
Qed.

(** C6, as the code has it. Reshaper round trip: the records with a
    value are exactly the cells with a value of the aligned table; when the
    timestamps are pairwise distinct and the column names are, re-widening
    by timestamp and sensor returns every cell of the table; and the aligned
    table has every cell with a value of the join result, whose columns
    without any value were dropped. *)
Theorem C6_reshaper_round_trip :
  (forall (w : wide_table) (rs : list record),
      melt w = Return rs ->
      exists ts,
        stamps w = Some ts /\
        (forall t n v,
            In (t, n, Some v) rs <->
            exists xs i, In (n, xs) (sensors w) /\
                         nth_error ts i = Some t /\
                         nth_error xs i = Some (Some v)) /\
        (NoDup ts -> NoDup (map fst (sensors w)) ->
         forall n xs i t x,
           In (n, xs) (sensors w) ->
           nth_error ts i = Some t ->
           nth_error xs i = Some x ->
           widen_cell rs t n = Some x)) /\
  (forall (j : frame) n xs i v,
      In (n, xs) (columns j) ->
      nth_error xs i = Some (Some v) ->
      In (n, xs) (sensors (dropna_columns (reset_index j)))).
Proof.
  split.
  - intros w rs Hm. destruct (melt_inv _ _ Hm) as (ts & Hts & ->).
    exists ts. split; [assumption|]. split.
    + intros t n v. apply melt_In.
    + intros Hndt Hndc n xs i t x Hc Ht Hx.
      unfold widen_cell.
      destruct (find (keyed t n) (flat_map (melt_column ts) (sensors w)))
        as [[[t' n'] x']|] eqn:Hfind.
      * apply find_some in Hfind. destruct Hfind as [Hin Hp].
        unfold keyed in Hp. simpl in Hp.
        apply andb_true_iff in Hp. destruct Hp as [Ht' Hn'].
        apply stamp_eqb_eq in Ht'. apply String.eqb_eq in Hn'. subst t' n'.
        apply melt_In in Hin. destruct Hin as (xs' & i' & Hc' & Ht' & Hx').
        assert (xs' = xs) by (eapply column_functional; eauto). subst xs'.
        assert (i' = i)
          by (apply (nth_error_NoDup_eq ts i' i t); assumption).
        subst i'.
        simpl. congruence.
      * assert (In (t, n, x) (flat_map (melt_column ts) (sensors w))) as Hin
            by (apply melt_In; eauto).
        eapply find_none in Hfind; [|exact Hin].
        unfold keyed in Hfind. simpl in Hfind.
        rewrite String.eqb_refl, andb_true_r in Hfind.
        assert (stamp_eqb t t = true) by (apply stamp_eqb_eq; reflexivity).
        congruence.
  - intros j n xs i v Hc Hv. simpl. apply filter_In. split; [assumption|].
    simpl. erewrite all_NaN_value by eassumption. reflexivity.
Qed.

Lemma C6_round_trip_witness :
  exists rs,
    melt (reset_index empty_column_example) = Return rs /\
    In (at_time 16072 0, "COSMOS_VWC", Some 32%Q) rs /\
    widen_cell rs (at_time 16072 0) "COSMOS_VWC" = Some (Some 32%Q).
Proof.
  eexists. split; [reflexivity|].
  destruct (proj1 C6_reshaper_round_trip (reset_index empty_column_example) _
                  eq_refl) as (ts & Hts & Hcells & Hwiden).
  injection Hts as <-. split.
  - apply Hcells. exists [Some 30%Q; Some 32%Q], 1%nat.
    split; [right; left; reflexivity|]. split; reflexivity.
  - apply (Hwiden) with (xs := [Some 30%Q; Some 32%Q]) (i := 1%nat).
    + repeat constructor; simpl; intros H; vm_compute in H;
        intuition discriminate.
    + repeat constructor; simpl; intuition discriminate.
    + right. left. reflexivity.
    + reflexivity.
    + reflexivity.
Defined.

(** Two rows of the native daily table with the same timestamp stay two
    rows of the aligned table; the second has [COSMOS_VWC] = 32, and
    re-widening by timestamp and sensor finds 30. *)
Lemma C6_repeated_timestamp_counterexample :
  exists w rs,
    aligned daily_repeat_example sub_example = Return w /\
    stamps w = Some [at_time 16071 0; at_time 16071 0] /\
    In ("COSMOS_VWC", [Some 30%Q; Some 32%Q]) (sensors w) /\
    melt w = Return rs /\
    widen_cell rs (at_time 16071 0) "COSMOS_VWC" = Some (Some 30%Q) /\
    Some (Some 30%Q) <> Some (Some 32%Q).
Proof.
  eexists. eexists.
  split; [reflexivity|]. split; [reflexivity|].
  split; [right; left; reflexivity|]. split; [reflexivity|].
  split; [reflexivity|]. discriminate.
Qed.


(** ** Idempotence of the Daily Aggregator *)












(** ** Selections *)

(** [site_daily] is the join, selection and reshaping of the two tables
    the catalog reads. *)
Lemma site_daily_long (cat : catalog) (a : string) :
  site_daily cat a =
  (daily <- read (cat Daily a) ;;
   sub <- read (cat SH a) ;;
   daily_joined_long daily sub).
Proof.
  unfold site_daily, daily_joined_long, aligned, daily_joined, read.
  destruct (DATE_TIME (cat Daily a)) as [tc|] eqn:Hd; [|reflexivity].
  simpl bind at 1. cbn [bind].
  unfold set_index. rewrite Hd.
  destruct (astype_datetime tc) as [ts|e] eqn:Hts; simpl.
  - destruct (DATE_TIME (cat SH a)); [|reflexivity]. simpl.
    destruct (daily_aggregate (cat SH a)) as [agg|e]; [|reflexivity]. simpl.
    destruct (join _ agg) as [j|e]; [|reflexivity]. simpl.
    destruct (getitem _ j); reflexivity.
  - assert (e = ValueError) as ->.
    { destruct tc as [ts|raw]; simpl in Hts; [discriminate|].
      destruct (read_stamps raw); congruence. }
    destruct (DATE_TIME (cat SH a)); reflexivity.
Qed.

Lemma site_daily_ext (cat cat' : catalog) (a : string) :
  cat Daily a = cat' Daily a ->
  cat SH a = cat' SH a ->
  site_daily cat a = site_daily cat' a.
Proof. intros Hd Hs. unfold site_daily. rewrite Hd, Hs. reflexivity. Qed.

Lemma put_contents (s : store) (r : resolution) (station : string)
      (o : frame_object) (r' : resolution) (station' : string) :
  columns_of o = columns_of (s r station) ->
  columns_of (put s r station o r' station') = columns_of (s r' station').
Proof.
  intros Ho. unfold put.
  destruct (resolution_eqb r r') eqn:Hr; simpl; [|reflexivity].
  destruct (String.eqb_spec station station') as [<-|Hne]; [|reflexivity].
  destruct r, r'; try discriminate; exact Ho.
Qed.

Lemma assign_index_inv (o o' : frame_object) :
  assign_index o = Return o' ->
  columns_of o' = columns_of o /\
  exists ts, index_of o' = Some ts /\
             set_index (columns_of o) =
             Return {| index := ts; columns := channels (columns_of o) |}.
Proof.
  unfold assign_index, set_index.
  destruct (DATE_TIME (columns_of o)) as [tc|]; [|discriminate].
  destruct (astype_datetime tc) as [ts|e]; simpl; [|discriminate].
  intros [= <-]. simpl. eauto.
Qed.

Lemma assign_index_raises (o : frame_object) (e : exn) :
  assign_index o = Raise e -> set_index (columns_of o) = Raise e.
Proof.
  unfold assign_index, set_index.
  destruct (DATE_TIME (columns_of o)) as [tc|];
    [|intros [= <-]; reflexivity].
  destruct (astype_datetime tc) as [ts|e']; simpl;
    [discriminate|intros [= <-]; reflexivity].
Qed.

(** A call leaves the columns of every stored object as they are. *)
Lemma site_daily_call_contents (cached : bool) (s : store) (a : string)
      (r : resolution) (station : string) :
  columns_of (fst (site_daily_call cached s a) r station) =
  columns_of (s r station).
Proof.
  unfold site_daily_call.
  destruct (read_object (s Daily a)) as [o|e] eqn:Hread; [|reflexivity].
  assert (o = s Daily a) as ->.
  { unfold read_object in Hread.
    destruct (DATE_TIME (columns_of (s Daily a))); congruence. }
  destruct (assign_index (s Daily a)) as [o'|e] eqn:Ha; [|reflexivity].
  destruct cached; simpl; [|reflexivity].
  apply put_contents. apply (assign_index_inv _ _ Ha).
Qed.

(** A call returns what [site_daily] computes from the columns of the
    stored objects, whatever their index slots hold. *)
Lemma site_daily_call_result (cached : bool) (s : store) (a : string) :
  snd (site_daily_call cached s a) = site_daily (contents s) a.
Proof.
  unfold site_daily_call, site_daily, contents, read_object, read.
  destruct (DATE_TIME (columns_of (s Daily a))) as [tc|] eqn:Hd;
    [|reflexivity].
  simpl bind.
  destruct (assign_index (s Daily a)) as [o'|e] eqn:Ha.
  - destruct (assign_index_inv _ _ Ha) as (Hcols & ts & Hix & Hset).
    rewrite Hset. simpl.
    assert (object_frame o' =
            {| index := ts; columns := channels (columns_of (s Daily a)) |})
      as Hframe by (unfold object_frame; rewrite Hix, Hcols; reflexivity).
    rewrite Hframe.
    assert ((if cached then put s Daily a o' else s) SH a = s SH a) as ->
        by (destruct cached; reflexivity).
    destruct (DATE_TIME (columns_of (s SH a))); reflexivity.
  - rewrite (assign_index_raises _ _ Ha). reflexivity.
Qed.

Lemma run_snoc (cached : bool) (s : store) (selections : list string)
      (a : string) :
  run cached s (selections ++ [a]) =
  (fst (site_daily_call cached (fst (run cached s selections)) a),
   (snd (run cached s selections) ++
    [snd (site_daily_call cached (fst (run cached s selections)) a)])%list).
Proof.
  unfold run. rewrite fold_left_app. simpl. unfold select_station at 1.
  destruct (site_daily_call cached
              (fst (fold_left (select_station cached) selections (s, [])))
              a).
  reflexivity.
Qed.

Lemma run_contents (cached : bool) (s : store) (selections : list string)
      (r : resolution) (station : string) :
  columns_of (fst (run cached s selections) r station) =
  columns_of (s r station).
Proof.
  induction selections as [|a selections IH] using rev_ind; [reflexivity|].
  rewrite run_snoc. simpl. rewrite site_daily_call_contents. exact IH.
Qed.

(** C8. Determinism across selections: whatever stations were selected
    before, and whether the catalog hands out a fresh frame or the same
    object whose index an earlier call assigned, the columns of the stored
    frames are those of the start, and a call for a station returns the long
    form [site_daily] computes from these columns alone.  Selecting A, B and
    A shows for A the same result both times. *)
Theorem C8_selection_determinism (cached : bool) (s : store) :
  (forall (selections : list string) (r : resolution) (station : string),
      columns_of (fst (run cached s selections) r station) =
      columns_of (s r station)) /\
  (forall (selections : list string) (a : string),
      snd (site_daily_call cached (fst (run cached s selections)) a) =
      site_daily (contents s) a) /\
  (forall a b : string,
      exists shown_b,
        snd (run cached s [a; b; a]) =
        [site_daily (contents s) a; shown_b; site_daily (contents s) a]).
Proof.
  assert (forall selections a,
             snd (site_daily_call cached (fst (run cached s selections)) a) =
             site_daily (contents s) a) as Hshown.
  { intros selections a. rewrite site_daily_call_result.
    apply site_daily_ext; unfold contents; apply run_contents. }
  split; [apply run_contents|]. split; [exact Hshown|].
  intros a b. eexists.
  pose proof (run_snoc cached s [a; b] a) as H3.
  pose proof (run_snoc cached s [a] b) as H2.
  pose proof (run_snoc cached s [] a) as H1.
  cbn [app] in H1, H2, H3.
  rewrite H3. cbn [snd]. rewrite Hshown.
  rewrite H2. cbn [snd].
  rewrite H1. cbn [snd]. rewrite (Hshown [] a).
  reflexivity.
Qed.

Lemma C8_selection_witness :
  snd (run true example_store ["CHIMN"; "SHEEP"; "CHIMN"]) =
  [Return [(at_time 16071 0, "PROBE1_VWC", Some (44 # 2)%Q);
           (at_time 16072 0, "PROBE1_VWC", None);
           (at_time 16071 0, "COSMOS_VWC", Some 30%Q);
           (at_time 16072 0, "COSMOS_VWC", Some 32%Q)];
   Return [(at_time 16071 0, "PROBE1_VWC", Some (44 # 2)%Q);
           (at_time 16072 0, "PROBE1_VWC", None);
           (at_time 16071 0, "COSMOS_VWC", Some 30%Q);
           (at_time 16072 0, "COSMOS_VWC", None)];
   Return [(at_time 16071 0, "PROBE1_VWC", Some (44 # 2)%Q);
           (at_time 16072 0, "PROBE1_VWC", None);
           (at_time 16071 0, "COSMOS_VWC", Some 30%Q);
           (at_time 16072 0, "COSMOS_VWC", Some 32%Q)]].
Proof.
  destruct (proj2 (proj2 (C8_selection_determinism true example_store))
                  "CHIMN" "SHEEP") as [shown_b Hrun].
  rewrite Hrun. f_equal. f_equal.
  assert (snd (run true example_store ["CHIMN"; "SHEEP"; "CHIMN"]) =
          [site_daily (contents example_store) "CHIMN"; shown_b;
           site_daily (contents example_store) "CHIMN"]) as H by exact Hrun.
  vm_compute in H. injection H as H. exact (eq_sym H).
Defined.

(** * Further properties of [site_daily] *)

(** ** When the run returns *)


Lemma has_column_map (n : string) (f : column -> column) (cs : list column) :
  (forall c, fst (f c) = fst c) ->
  has_column n (map f cs) = has_column n cs.
Proof.
  intros Hf. unfold has_column, named.
  induction cs as [|c cs IH]; simpl; [reflexivity|].
  rewrite Hf, IH. reflexivity.
Qed.


Lemma aggregate_names (sub : source_table) (agg : frame) :
  daily_aggregate sub = Return agg ->
  map fst (columns agg) = map fst (filter is_vwc (channels sub)).
Proof.
  unfold daily_aggregate.
  destruct (DATE_TIME sub) as [[ts|raw]|]; try discriminate.
  destruct (factorize (map (option_map date) ts)) as [labels uniques].
  intros [= <-]. simpl. rewrite map_map. reflexivity.
Qed.




Lemma daily_joined_unfold (daily sub : source_table) (d agg : frame) :
  set_index daily = Return d ->
  daily_aggregate sub = Return agg ->
  daily_joined daily sub =
  (j <- join d agg ;; getitem (target_columns sub) j).
Proof.
  intros Hd Hagg. unfold daily_joined. rewrite Hd. simpl.
  rewrite Hagg. reflexivity.
Qed.



(** ** Shape *)

(** X4. The aggregate is a rectangular frame whatever the input: every
    column has one cell per group key, and key and columns are empty only
    together with the timestamps having no date. *)
Theorem aggregate_rectangular (sub : source_table) (agg : frame) :
  daily_aggregate sub = Return agg ->
  rectangular (length (index agg)) (columns agg) /\
  (index agg = [] <->
   forall ts, DATE_TIME sub = Some (Parsed ts) -> all_NaT ts = true).
Proof.
  intros Hagg.
  destruct (DATE_TIME sub) as [[ts|raw]|] eqn:Hts;
    try (unfold daily_aggregate in Hagg; rewrite Hts in Hagg; discriminate).
  rewrite (daily_aggregate_parsed _ _ Hts) in Hagg. injection Hagg as <-.
  simpl. split.
  - apply Forall_forall. intros c Hc. apply in_map_iff in Hc.
    destruct Hc as (c' & <- & _). simpl. rewrite !length_map. reflexivity.
  - split.
    + intros Hnil ts' [= <-]. apply forallb_forall. intros [t|] Ht;
        [|reflexivity].
      assert (In (date t) (unique_keys (dates_of ts))) as Hin
          by (apply unique_keys_In, dates_of_In; eauto).
      destruct (unique_keys (dates_of ts)); [destruct Hin|discriminate].
    + intros Hall. specialize (Hall ts eq_refl).
      unfold all_NaT in Hall. rewrite forallb_forall in Hall.
      destruct (unique_keys (dates_of ts)) as [|d us] eqn:Hus;
        [reflexivity|].
      assert (In d (unique_keys (dates_of ts))) as Hin
          by (rewrite Hus; left; reflexivity).
      apply unique_keys_In, dates_of_In in Hin.
      destruct Hin as (t & Hin & _). apply Hall in Hin. discriminate.
Qed.

Lemma aggregate_rectangular_witness :
  rectangular (length [at_time 16071 0; at_time 16073 0])
              [("PROBE1_VWC", [Some (44 # 2)%Q; Some 25%Q])] /\
  ([at_time 16071 0; at_time 16073 0] = [] <->
   forall ts, DATE_TIME sub_example = Some (Parsed ts) -> all_NaT ts = true).
Proof.
  apply (aggregate_rectangular
           sub_example
           {| index := [at_time 16071 0; at_time 16073 0];
              columns := [("PROBE1_VWC", [Some (44 # 2)%Q; Some 25%Q])] |}).
  reflexivity.
Defined.



(** ** What the run does not read *)

Lemma filter_idem {A} (f : A -> bool) (l : list A) :
  filter f (filter f l) = filter f l.
Proof.
  induction l as [|a l IH]; simpl; [reflexivity|].
  destruct (f a) eqn:Ha; simpl; rewrite ?Ha, IH; reflexivity.
Qed.

(** X6. Channels of the sub-daily table that are not VWC channels are
    never read: the run on the table with its VWC channels only gives the
    same result or the same exception. *)
Theorem other_sub_daily_channels_unread (daily sub : source_table) :
  daily_joined_long daily (vwc_only sub) = daily_joined_long daily sub.
Proof.
  unfold daily_joined_long, aligned, daily_joined, target_columns,
    daily_aggregate, vwc_only. simpl.
  rewrite filter_idem. reflexivity.
Qed.

Lemma filter_named_filter (n m : string) (cs : list column) :
  filter (named n) (filter (named m) cs) =
  if String.eqb n m then filter (named n) cs else [].
Proof.
  induction cs as [|c cs IH]; simpl; [destruct (String.eqb n m); reflexivity|].
  destruct (named m c) eqn:Hm; simpl.
  - destruct (named n c) eqn:Hn; rewrite IH.
    + apply named_eq in Hm, Hn. subst. rewrite String.eqb_refl. reflexivity.
    + destruct (String.eqb n m) eqn:Hnm; [|reflexivity].
      apply String.eqb_eq in Hnm. subst. congruence.
  - rewrite IH. destruct (String.eqb n m) eqn:Hnm; [|reflexivity].
    apply String.eqb_eq in Hnm. subst. rewrite Hm. reflexivity.
Qed.

Lemma has_column_filter (n : string) (cs : list column) :
  has_column n cs = negb (match filter (named n) cs with
                          | [] => true
                          | _ :: _ => false
                          end).
Proof.
  unfold has_column. induction cs as [|c cs IH]; simpl; [reflexivity|].
  destruct (named n c); simpl; [reflexivity|exact IH].
Qed.

(** X7. Of the native daily table only the [COSMOS_VWC] column and the
    timestamps reach the output: when the run returns, the run on the native
    daily table with its [COSMOS_VWC] columns only returns the same long
    form. *)
Theorem other_daily_channels_unread (daily sub : source_table)
        (rs : list record) :
  daily_joined_long daily sub = Return rs ->
  daily_joined_long (only_cosmos daily) sub = Return rs.
Proof.
  unfold daily_joined_long, aligned.
  destruct (daily_joined daily sub) as [j|e] eqn:Hj; [|discriminate].
  destruct (daily_joined_inv _ _ _ Hj)
    as (ts & agg & Hts & Hagg & Hno & Hhas & ->).
  assert (forall n,
             In n (target_columns sub) ->
             filter (named n)
                    (filter (named "COSMOS_VWC") (channels daily) ++
                     map (reindex agg ts) (columns agg)) =
             filter (named n)
                    (channels daily ++ map (reindex agg ts) (columns agg)))
    as Hsame.
  { intros n Hn. rewrite !filter_app. f_equal.
    rewrite filter_named_filter.
    destruct (String.eqb n "COSMOS_VWC") eqn:Hc; [reflexivity|].
    apply String.eqb_neq in Hc. apply target_columns_In in Hn.
    destruct Hn as [Hn|Hn]; [|congruence].
    rewrite <- (aggregate_names _ _ Hagg) in Hn.
    apply in_map_iff in Hn. destruct Hn as ([n' ys] & Hn' & Hin).
    simpl in Hn'. subst n'.
    destruct (filter (named n) (channels daily)) as [|c l] eqn:Hf;
      [reflexivity|].
    assert (In c (filter (named n) (channels daily))) as Hc'
        by (rewrite Hf; left; reflexivity).
    apply filter_In in Hc'. destruct Hc' as [Hc' Hnc].
    apply named_eq in Hnc. specialize (Hno _ Hc'). rewrite <- Hnc in Hno.
    assert (has_column n (columns agg) = true)
      by (apply has_column_In; eauto).
    congruence. }
  intros Hrs.
  assert (set_index (only_cosmos daily) =
          Return {| index := ts;
                    columns := filter (named "COSMOS_VWC")
                                      (channels daily) |}) as Hts'.
  { destruct (set_index_inv _ _ Hts) as (tc & ts0 & Htc & Hts0 & [= ->]).
    unfold set_index, only_cosmos. simpl. rewrite Htc, Hts0. reflexivity. }
  rewrite (daily_joined_unfold (only_cosmos daily) sub _ agg Hts' Hagg).
  unfold join. simpl columns. simpl index.
  match goal with
  | |- bind (bind (bind (if ?b then _ else _) _) _) _ = _ =>
      assert (b = false) as ->
  end.
  { match goal with |- ?b = false => destruct b eqn:Hov end;
      [|reflexivity].
    apply existsb_exists in Hov. destruct Hov as (c & Hc & Hcc).
    apply filter_In in Hc. rewrite (Hno c) in Hcc by apply Hc.
    discriminate. }
  simpl. unfold getitem. simpl columns. simpl index.
  match goal with
  | |- bind (bind (if ?b then _ else _) _) _ = _ => assert (b = true) as ->
  end.
  { apply forallb_forall. intros n Hn.
    rewrite has_column_filter, (Hsame n Hn), <- has_column_filter. auto. }
  simpl bind.
  replace (flat_map
             (fun n => filter (named n)
                         (filter (named "COSMOS_VWC") (channels daily) ++
                          map (reindex agg ts) (columns agg)))
             (target_columns sub))
    with (flat_map
            (fun n => filter (named n)
                        (channels daily ++
                         map (reindex agg ts) (columns agg)))
            (target_columns sub)).
  - exact Hrs.
  - rewrite !flat_map_concat_map. f_equal.
    apply map_ext_in. intros n Hn. symmetry. apply Hsame. exact Hn.
Qed.

Lemma other_daily_channels_unread_witness :
  daily_joined_long (only_cosmos daily_pe_example) sub_example =
  Return [(at_time 16071 0, "PROBE1_VWC", Some (44 # 2)%Q);
          (at_time 16072 0, "PROBE1_VWC", None);
          (at_time 16071 0, "COSMOS_VWC", Some 30%Q);
          (at_time 16072 0, "COSMOS_VWC", Some 32%Q)].
Proof.
  apply (other_daily_channels_unread daily_pe_example sub_example).
  reflexivity.
Defined.

Lemma add_keys_stamped (ts : list stamp) (us : list Z) :
  fold_left add_key (dates_of (compress (stamped ts) ts)) us =
  fold_left add_key (dates_of ts) us.
Proof.
  revert us. induction ts as [|[t|] ts IH]; intros us; simpl;
    [reflexivity| |]; apply IH.
Qed.

Lemma observations_stamped (d : Z) (ts : list stamp) (xs : list cell) :
  observations d (compress (stamped ts) ts) (compress (stamped ts) xs) =
  observations d ts xs.
Proof.
  unfold observations. revert xs.
  induction ts as [|[t|] ts IH]; intros [|x xs]; simpl; try reflexivity.
  - rewrite IH. reflexivity.
  - rewrite combine_nil. reflexivity.
  - apply IH.
Qed.

Lemma filter_vwc_compress (mask : list bool) (cs : list column) :
  filter is_vwc (map (compress_column mask) cs) =
  map (compress_column mask) (filter is_vwc cs).
Proof.
  induction cs as [|c cs IH]; simpl; [reflexivity|].
  unfold is_vwc at 1. simpl. fold (is_vwc c).
  destruct (is_vwc c); simpl; rewrite IH; reflexivity.
Qed.

(** X8. Readings without a timestamp are ignored by the Aggregator: the
    aggregate of the table without its [NaT] rows is the aggregate of the
    table. *)
Theorem rows_without_timestamp_ignored (sub : source_table)
        (ts : list stamp) :
  DATE_TIME sub = Some (Parsed ts) ->
  daily_aggregate (without_NaT_rows ts (channels sub)) = daily_aggregate sub.
Proof.
  intros Hts.
  rewrite (daily_aggregate_parsed sub ts Hts).
  rewrite (daily_aggregate_parsed (without_NaT_rows ts (channels sub))
                                  (compress (stamped ts) ts))
    by reflexivity.
  unfold unique_keys. rewrite add_keys_stamped. simpl channels.
  rewrite filter_vwc_compress, map_map. f_equal. f_equal.
  apply map_ext. intros c. simpl. f_equal.
  apply map_ext. intros d. rewrite observations_stamped. reflexivity.
Qed.

Lemma rows_without_timestamp_witness :
  daily_aggregate
    {| DATE_TIME := Some (Parsed [at_time 16071 6; at_time 16071 18]);
       channels := [("PROBE1_VWC", [Some 20%Q; Some 24%Q])] |} =
  daily_aggregate sub_NaT_example.
Proof.
  apply (rows_without_timestamp_ignored
           sub_NaT_example [at_time 16071 6; None; at_time 16071 18]).
  reflexivity.
Defined.

(** * [plot_pe_vwc] *)

Lemma nth_and_mask (m m' : list bool) (i : nat) :
  nth i (and_mask m m') false = nth i m false && nth i m' false.
Proof.
  unfold and_mask. revert m' i.
  induction m as [|b m IH]; intros [|b' m'] [|i]; simpl;
    rewrite ?andb_false_r; try reflexivity.
  apply IH.
Qed.

Lemma nth_notna (xs : list cell) (i : nat) :
  (i < length xs)%nat ->
  nth i (notna xs) false = negb (is_NaN (nth i xs None)).
Proof.
  unfold notna. revert i.
  induction xs as [|x xs IH]; intros [|i] Hi; simpl in *; try lia;
    [reflexivity|].
  apply IH. lia.
Qed.

Lemma nth_repeat_true (n i : nat) :
  nth i (repeat true n) false = (i <? n)%nat.
Proof.
  revert i. induction n as [|n IH]; intros [|i]; simpl; try reflexivity.
  apply IH.
Qed.

Lemma and_mask_length (m m' : list bool) :
  length m = length m' -> length (and_mask m m') = length m'.
Proof.
  intros H. unfold and_mask. rewrite length_map, length_combine. lia.
Qed.

Lemma notna_all_length (n : nat) (cs : list column) :
  rectangular n cs -> length (notna_all n cs) = n.
Proof.
  induction 1 as [|c cs Hc Hcs IH]; simpl; [apply repeat_length|].
  rewrite and_mask_length; [exact IH|].
  unfold notna. rewrite length_map. congruence.
Qed.

(** The mask marks the rows that are complete. *)
Lemma nth_notna_all (n : nat) (cs : list column) (i : nat) :
  rectangular n cs ->
  nth i (notna_all n cs) false = (i <? n)%nat && complete_row cs i.
Proof.
  induction 1 as [|c cs Hc Hcs IH]; simpl.
  - rewrite nth_repeat_true, andb_true_r. reflexivity.
  - rewrite nth_and_mask, IH.
    destruct (Nat.ltb_spec i n) as [Hlt|Hge]; simpl.
    + rewrite nth_notna by lia. reflexivity.
    + apply andb_false_r.
Qed.


Lemma compress_length {A B} (mask : list bool) (xs : list A) (ys : list B) :
  length xs = length ys ->
  length (compress mask xs) = length (compress mask ys).
Proof.
  revert xs ys.
  induction mask as [|b mask IH]; intros [|x xs] [|y ys] H; simpl in *;
    try discriminate; try reflexivity.
  destruct b; simpl; rewrite (IH xs ys) by lia; reflexivity.
Qed.

Lemma compress_no_NaN (mask : list bool) (xs : list cell) :
  (forall i, (i < length xs)%nat -> nth i mask false = true ->
             is_NaN (nth i xs None) = false) ->
  no_NaN (compress mask xs) = true.
Proof.
  unfold no_NaN. revert xs.
  induction mask as [|b mask IH]; intros [|x xs] H; simpl; try reflexivity.
  assert (forallb (fun x => negb (is_NaN x)) (compress mask xs) = true)
    as Hrest.
  { apply IH. intros i Hi Hm. apply (H (S i)); simpl; [lia|assumption]. }
  destruct b; simpl; [|exact Hrest].
  rewrite Hrest, andb_true_r.
  specialize (H O). simpl in H. rewrite H; [reflexivity|lia|reflexivity].
Qed.

Lemma compress_true {A} (k : nat) (xs : list A) :
  (length xs <= k)%nat -> compress (repeat true k) xs = xs.
Proof.
  revert xs. induction k as [|k IH]; intros [|x xs] H; simpl in *;
    try reflexivity; try lia.
  rewrite IH by lia. reflexivity.
Qed.

Lemma notna_no_NaN (xs : list cell) :
  no_NaN xs = true -> notna xs = repeat true (length xs).
Proof.
  unfold no_NaN, notna. induction xs as [|x xs IH]; simpl; [reflexivity|].
  intros H. apply andb_true_iff in H. destruct H as [-> H].
  rewrite IH by exact H. reflexivity.
Qed.

Lemma and_mask_true (k : nat) :
  and_mask (repeat true k) (repeat true k) = repeat true k.
Proof.
  unfold and_mask. induction k as [|k IH]; simpl; [reflexivity|].
  rewrite IH. reflexivity.
Qed.

Lemma notna_all_true (k : nat) (cs : list column) :
  Forall (fun c => length (snd c) = k /\ no_NaN (snd c) = true) cs ->
  notna_all k cs = repeat true k.
Proof.
  induction 1 as [|c cs [Hlen Hval] Hcs IH]; simpl; [reflexivity|].
  rewrite IH, (notna_no_NaN _ Hval), Hlen. apply and_mask_true.
Qed.

Lemma filter_named_compress (mask : list bool) (n : string)
      (cs : list column) :
  filter (named n) (map (compress_column mask) cs) =
  map (compress_column mask) (filter (named n) cs).
Proof.
  induction cs as [|c cs IHc]; simpl; [reflexivity|].
  unfold named at 1. simpl. fold (named n c).
  destruct (named n c); simpl; rewrite IHc; reflexivity.
Qed.

Lemma taken_compress (mask : list bool) (names : list string)
      (cs : list column) :
  flat_map (fun n => filter (named n) (map (compress_column mask) cs)) names =
  map (compress_column mask)
      (flat_map (fun n => filter (named n) cs) names).
Proof.
  induction names as [|n names IH]; simpl; [reflexivity|].
  rewrite map_app, IH, filter_named_compress. reflexivity.
Qed.

Lemma dropna_subset_inv (names : list string) (t t' : source_table) :
  dropna_subset names t = Return t' ->
  (forall n, In n names -> has_column n (channels t) = true) /\
  t' = {| DATE_TIME :=
            option_map
              (compress_time
                 (notna_all (nrows t)
                    (flat_map (fun n => filter (named n) (channels t))
                              names)))
              (DATE_TIME t);
          channels :=
            map (compress_column
                   (notna_all (nrows t)
                      (flat_map (fun n => filter (named n) (channels t))
                                names)))
                (channels t) |}.
Proof.
  unfold dropna_subset.
  destruct (forallb (fun n => has_column n (channels t)) names) eqn:Hall;
    [|discriminate].
  intros [= <-]. split; [|reflexivity].
  rewrite forallb_forall in Hall. exact Hall.
Qed.

Lemma taken_rectangular (n : nat) (names : list string) (cs : list column) :
  rectangular n cs ->
  rectangular n (flat_map (fun m => filter (named m) cs) names).
Proof.
  unfold rectangular. rewrite !Forall_forall. intros H c Hc.
  apply getitem_In in Hc. apply H, Hc.
Qed.

(** The number of rows after the selection. *)
Lemma nrows_compress (mask : list bool) (t : source_table) :
  well_formed t ->
  length mask = nrows t ->
  well_formed {| DATE_TIME := option_map (compress_time mask) (DATE_TIME t);
                 channels := map (compress_column mask) (channels t) |} /\
  nrows {| DATE_TIME := option_map (compress_time mask) (DATE_TIME t);
           channels := map (compress_column mask) (channels t) |} =
  length (compress mask mask).
Proof.
  unfold well_formed, nrows, rectangular. intros Hwf Hlen. simpl.
  assert (forall c, In c (channels t) ->
                    length (compress mask (snd c)) =
                    length (compress mask mask)) as Hcol.
  { intros c Hc. apply compress_length.
    rewrite Forall_forall in Hwf. rewrite (Hwf c Hc).
    unfold nrows. symmetry. exact Hlen. }
  assert (match option_map (compress_time mask) (DATE_TIME t) with
          | Some tc => time_rows tc
          | None => match map (compress_column mask) (channels t) with
                    | [] => O
                    | c :: _ => length (snd c)
                    end
          end = length (compress mask mask)) as Hrows.
  { unfold nrows in Hlen.
    destruct (DATE_TIME t) as [[ts|raw]|]; simpl in *.
    - apply compress_length. congruence.
    - apply compress_length. congruence.
    - destruct (channels t) as [|c cs]; simpl in *.
      + destruct mask; [reflexivity|discriminate].
      + apply Hcol. left. reflexivity. }
  split; [|exact Hrows].
  rewrite Hrows. apply Forall_forall. intros c Hc.
  apply in_map_iff in Hc. destruct Hc as (c' & <- & Hc'). simpl. auto.
Qed.

Lemma complete_row_In (names : list string) (cs : list column) (i : nat) :
  complete_row (flat_map (fun n => filter (named n) cs) names) i = true <->
  forall n xs, In n names -> In (n, xs) cs ->
               is_NaN (nth i xs None) = false.
Proof.
  unfold complete_row. rewrite forallb_forall. split.
  - intros H n xs Hn Hc.
    specialize (H (n, xs)). simpl in H. apply negb_true_iff, H.
    apply getitem_In. auto.
  - intros H [n xs] Hc. apply getitem_In in Hc. simpl in *.
    apply negb_true_iff. apply (H n xs); tauto.
Qed.

(** X9. [dropna(subset=...)] keeps exactly the rows that have a value in
    every column of the subset: the timestamps and every column are cut by
    one and the same row mask, and the mask marks the rows below the length
    of the table in which no column of the subset is missing. *)
Theorem dropna_subset_rows (names : list string) (t t' : source_table) :
  well_formed t ->
  dropna_subset names t = Return t' ->
  exists mask,
    length mask = nrows t /\
    (forall i, nth i mask false = true <->
               (i < nrows t)%nat /\
               forall n xs, In n names -> In (n, xs) (channels t) ->
                            is_NaN (nth i xs None) = false) /\
    DATE_TIME t' = option_map (compress_time mask) (DATE_TIME t) /\
    channels t' = map (compress_column mask) (channels t).
Proof.
  intros Hwf Hd. destruct (dropna_subset_inv _ _ _ Hd) as [_ ->].
  pose proof (taken_rectangular _ names _ Hwf) as Hr.
  eexists. split; [apply notna_all_length; exact Hr|].
  split; [|split; reflexivity].
  intros i. rewrite (nth_notna_all _ _ i Hr), andb_true_iff.
  rewrite Nat.ltb_lt, complete_row_In. reflexivity.
Qed.

Lemma dropna_subset_rows_witness :
  exists mask,
    length mask = nrows daily_pe_gaps_example /\
    (forall i, nth i mask false = true <->
               (i < nrows daily_pe_gaps_example)%nat /\
               forall n xs, In n ["COSMOS_VWC"; "PE"] ->
                            In (n, xs) (channels daily_pe_gaps_example) ->
                            is_NaN (nth i xs None) = false) /\
    Some (Parsed [at_time 16071 0; at_time 16074 0]) =
    option_map (compress_time mask) (DATE_TIME daily_pe_gaps_example) /\
    [("COSMOS_VWC", [Some 30%Q; Some 31%Q]);
     ("PE", [Some 1%Q; Some 3%Q]);
     ("TA", [None; Some 6%Q])] =
    map (compress_column mask) (channels daily_pe_gaps_example).
Proof.
  apply (dropna_subset_rows
           ["COSMOS_VWC"; "PE"] daily_pe_gaps_example
           {| DATE_TIME := Some (Parsed [at_time 16071 0; at_time 16074 0]);
              channels := [("COSMOS_VWC", [Some 30%Q; Some 31%Q]);
                           ("PE", [Some 1%Q; Some 3%Q]);
                           ("TA", [None; Some 6%Q])] |}).
  - repeat constructor.
  - reflexivity.
Defined.



(** X11. [dropna(subset=...)] is idempotent: applied to its own result it
    returns that result, since no row of it is incomplete. *)
Theorem dropna_subset_idempotent (names : list string)
        (t t' : source_table) :
  well_formed t ->
  dropna_subset names t = Return t' ->
  dropna_subset names t' = Return t'.
Proof.
  intros Hwf Hd.
  destruct (dropna_subset_rows _ _ _ Hwf Hd)
    as (mask & Hlen & Hmask & Htime & Hcols).
  destruct (dropna_subset_inv _ _ _ Hd) as [Hhas _].
  destruct (nrows_compress mask t Hwf Hlen) as [Hwf' Hrows].
  assert (t' = {| DATE_TIME := option_map (compress_time mask) (DATE_TIME t);
                  channels := map (compress_column mask) (channels t) |})
    as Ht' by (destruct t'; simpl in *; congruence).
  rewrite <- Ht' in Hwf', Hrows.
  unfold dropna_subset.
  assert (forallb (fun n => has_column n (channels t')) names = true) as ->.
  { apply forallb_forall. intros n Hn. rewrite Hcols.
    rewrite has_column_map by reflexivity. auto. }
  assert (notna_all (nrows t')
            (flat_map (fun n => filter (named n) (channels t')) names) =
          repeat true (nrows t')) as ->.
  { apply notna_all_true. apply Forall_forall. intros c Hc.
    apply getitem_In in Hc. destruct Hc as [Hn Hc]. split.
    - unfold well_formed, rectangular in Hwf'.
      rewrite Forall_forall in Hwf'. auto.
    - rewrite Hcols in Hc. apply in_map_iff in Hc.
      destruct Hc as ([n xs] & <- & Hin). simpl in *.
      apply compress_no_NaN. intros i Hi Hm.
      apply Hmask in Hm. destruct Hm as [_ Hm]. eauto. }
  f_equal. destruct t' as [dt cs]. simpl in *. f_equal.
  - unfold nrows. simpl.
    destruct dt as [[ts|raw]|]; simpl; [| |reflexivity];
      rewrite compress_true by lia; reflexivity.
  - unfold well_formed, rectangular in Hwf'. simpl in Hwf'.
    clear - Hwf'. revert Hwf'. generalize (nrows {| DATE_TIME := dt;
                                                     channels := cs |}).
    intros k Hk. induction Hk as [|[n xs] cs Hlen Hk IH]; [reflexivity|].
    simpl. unfold compress_column at 1. simpl in *.
    rewrite compress_true by lia. rewrite IH. reflexivity.
Qed.

Lemma dropna_subset_idempotent_witness :
  dropna_subset
    ["COSMOS_VWC"; "PE"]
    {| DATE_TIME := Some (Parsed [at_time 16071 0; at_time 16074 0]);
       channels := [("COSMOS_VWC", [Some 30%Q; Some 31%Q]);
                    ("PE", [Some 1%Q; Some 3%Q]);
                    ("TA", [None; Some 6%Q])] |} =
  Return
    {| DATE_TIME := Some (Parsed [at_time 16071 0; at_time 16074 0]);
       channels := [("COSMOS_VWC", [Some 30%Q; Some 31%Q]);
                    ("PE", [Some 1%Q; Some 3%Q]);
                    ("TA", [None; Some 6%Q])] |}.
Proof.
  apply (dropna_subset_idempotent
           ["COSMOS_VWC"; "PE"] daily_pe_gaps_example).
  - repeat constructor.
  - reflexivity.
Defined.

(** * [season] *)

Lemma month_cases (m : Z) :
  1 <= m <= 12 ->
  m = 1 \/ m = 2 \/ m = 3 \/ m = 4 \/ m = 5 \/ m = 6 \/
  m = 7 \/ m = 8 \/ m = 9 \/ m = 10 \/ m = 11 \/ m = 12.
Proof. lia. Qed.

Ltac each_month H :=
  apply month_cases in H;
  repeat (destruct H as [H|H]); subst.

Lemma month_season (m : Z) :
  (1 <= m <= 12 <->
   exists s, get_month seasons m = Some s) /\
  (forall s, get_month seasons m = Some s ->
             exists k, season_key (Some s) = Some k /\ 0 <= k <= 4).
Proof.
  split; [split|].
  - intros H. each_month H; vm_compute; eauto.
  - intros [s Hs]. unfold seasons in Hs. simpl in Hs.
    repeat match type of Hs with
           | (if ?m =? ?k then _ else _) = _ =>
               destruct (Z.eqb_spec m k); [lia|]
           end.
    discriminate.
  - intros s Hs. unfold seasons in Hs. simpl in Hs.
    repeat match type of Hs with
           | (if ?m =? ?k then _ else _) = _ =>
               destruct (m =? k);
                 [injection Hs as <-; vm_compute; eexists;
                  split; [reflexivity|split; discriminate]|]
           end.
    discriminate.
Qed.

(** X12. The column [season] has one row per row of the table; a row
    whose month is from 1 to 12 has a season, and its sort key is defined,
    so no dated row is left without a place in the sorted table; a row
    without timestamp, or with any other month number, has no season. *)
Theorem season_defined (months : list (option Z)) :
  length (season months) = length months /\
  (forall i, nth_error months i = Some None ->
             nth_error (season months) i = Some None) /\
  (forall i m,
      nth_error months i = Some (Some m) ->
      (1 <= m <= 12 <->
       exists s, nth_error (season months) i = Some (Some s)) /\
      (forall s, nth_error (season months) i = Some (Some s) ->
                 exists k, season_key (Some s) = Some k /\ 0 <= k <= 4)).
Proof.
  unfold season. split; [apply length_map|]. split.
  - intros i Hi. rewrite nth_error_map, Hi. reflexivity.
  - intros i m Hi. rewrite nth_error_map, Hi. cbn [option_map].
    destruct (month_season m) as [Hdef Hkey]. split.
    + rewrite Hdef. split; intros [s Hs]; exists s; congruence.
    + intros s [= Hs]. auto.
Qed.

Lemma season_defined_witness :
  (1 <= 7 <-> True) /\
  exists k, season_key (Some "summer") = Some k /\ 0 <= k <= 4.
Proof.
  split; [split; [trivial|lia]|].
  apply (proj2 (proj2 (proj2 (season_defined [Some 7; None])) O 7 eq_refl)
               "summer").
  reflexivity.
Defined.

(** X13. Sorting by the key puts the rows in the order of the
    meteorological year that starts in December: for two months, the one
    that comes first counted from December has the smaller or the same
    key, and months of one season have the same key. *)
Theorem season_key_order (m m' : Z) (k k' : Z) :
  1 <= m <= 12 ->
  1 <= m' <= 12 ->
  season_key (get_month seasons m) = Some k ->
  season_key (get_month seasons m') = Some k' ->
  (m mod 12 <= m' mod 12 -> k <= k') /\
  (get_month seasons m = get_month seasons m' <-> k = k') /\
  (k = k' <-> (m mod 12) / 3 = (m' mod 12) / 3).
Proof.
  intros H H' Hk Hk'.
  each_month H; each_month H'; vm_compute in Hk, Hk';
    injection Hk as <-; injection Hk' as <-;
    (split; [vm_compute; intros; congruence|]);
    split; vm_compute; split; congruence.
Qed.

Lemma season_key_order_witness :
  (12 mod 12 <= 7 mod 12 -> 0 <= 3) /\
  (get_month seasons 12 = get_month seasons 7 <-> 0 = 3) /\
  (0 = 3 <-> (12 mod 12) / 3 = (7 mod 12) / 3).
Proof.
  apply (season_key_order 12 7 0 3); try lia; reflexivity.
Defined.

(** * The cells of the aligned table *)




